(** * loam-iiif: the IIIF client ([loam_iiif/iiif.py])

    A shallow embedding of [TrailingCommaJSONDecoder] and of the methods
    [_normalize_item_id], [_normalize_item_type],
    [get_manifests_and_collections_ids] and [get_manifest_images] of
    [IIIFClient], with the properties of the collection walk, of the
    trailing-comma repair and of the image-URL synthesis.

    Conventions of the embedding.
    - A parsed JSON document is a [json] value.  [JNum] holds a Python [int];
      fractional numbers are outside the model.
    - The body of a response is a Python [str] in full: a list of Unicode
      code points ([codepoint]), with [is_space] the class [\s].
    - A [str] inside a document is a [string] whose characters are read as
      the code points 0..255; [is_digit] and [lower] are Python's [\d] and
      [str.lower] on that range.
    - A raised exception is a [Raise e] result; [try]/[except] is a [match].
    - [self.fetch_json] is the oracle of the class [Fetcher]: it may depend on
      and change the outside world (network, cache).
    - [str()] of a value that is not a [str], and the iteration order of a
      [set], belong to the interpreter: they are the fields of [PyRuntime]. *)

From Stdlib Require Import ZArith List String Ascii Bool Lia Permutation.
From Stdlib Require Import DecimalString.
Import ListNotations.

Local Open Scope string_scope.
Local Open Scope list_scope.

Set Warnings "-register-all".

(** ** JSON values, exceptions, results *)

Inductive json : Type :=
| JNull
| JBool (b : bool)
| JNum (n : Z)
| JStr (s : string)
| JArr (xs : list json)
| JObj (kvs : list (string * json)).

(** The exception classes that occur.  [HTTPError] is a subclass of
    [RequestException]; [JSONDecodeError] is a subclass of [ValueError];
    every class below is a subclass of [Exception]. *)
Inductive exn : Type :=
| HTTPError
| RequestException
| JSONDecodeError
| AttributeError
| TypeError
| IndexError
| KeyError
| OSError.

Inductive result (A : Type) : Type :=
| Ok (a : A)
| Raise (e : exn).

Arguments Ok {A} a.
Arguments Raise {A} e.

Definition bind {A B : Type} (r : result A) (k : A -> result B) : result B :=
  match r with
  | Ok a => k a
  | Raise e => Raise e
  end.

Notation "x <- r ;; k" := (bind r (fun x => k))
  (at level 61, r at next level, right associativity).

(** [except (requests.RequestException, ValueError)]. *)
Definition is_fetch_error (e : exn) : bool :=
  match e with
  | HTTPError | RequestException | JSONDecodeError => true
  | _ => false
  end.

(** A list comprehension whose element expression may raise: evaluation stops
    at the first exception. *)
Fixpoint mapM {A B : Type} (f : A -> result B) (l : list A) : result (list B) :=
  match l with
  | [] => Ok []
  | a :: l' => b <- f a ;; bs <- mapM f l' ;; Ok (b :: bs)
  end.

(** A list comprehension with an [if] clause that may raise. *)
Fixpoint filterM {A : Type} (p : A -> result bool) (l : list A) : result (list A) :=
  match l with
  | [] => Ok []
  | a :: l' =>
      keep <- p a ;; rest <- filterM p l' ;;
      Ok (if keep then a :: rest else rest)
  end.

(** ** Strings *)

Definition ascii_in (lo hi : nat) (c : ascii) : bool :=
  (lo <=? nat_of_ascii c)%nat && (nat_of_ascii c <=? hi)%nat.

(** The class [\d] on the code points 0..255. *)
Definition is_digit (c : ascii) : bool := ascii_in 48 57 c.

(** [str.lower] on one code point below 256: A..Z and the Latin-1 capitals
    (all of 192..222 but the multiplication sign 215) move up by 32. *)
Definition lower_char (c : ascii) : ascii :=
  let n := nat_of_ascii c in
  if ascii_in 65 90 c || (ascii_in 192 222 c && negb (n =? 215)%nat)
  then ascii_of_nat (n + 32)
  else c.

Fixpoint lower (s : string) : string :=
  match s with
  | EmptyString => EmptyString
  | String c r => String (lower_char c) (lower r)
  end.

(** [needle in hay] for two [str]s. *)
Fixpoint contains (needle hay : string) : bool :=
  match hay with
  | EmptyString => prefix needle EmptyString
  | String _ r => prefix needle hay || contains needle r
  end.

Fixpoint has_char (c : ascii) (s : string) : bool :=
  match s with
  | EmptyString => false
  | String d r => Ascii.eqb c d || has_char c r
  end.

(** [s.split(sep)[-1]] for a one-character separator. *)
Fixpoint last_segment (sep : ascii) (s : string) : string :=
  match s with
  | EmptyString => EmptyString
  | String c r =>
      if has_char sep r then last_segment sep r
      else if Ascii.eqb c sep then r
      else s
  end.

(** [s.split(sep)[0]] for a non-empty separator. *)
Fixpoint before_first (sep s : string) : string :=
  match s with
  | EmptyString => EmptyString
  | String c r => if prefix sep s then EmptyString else String c (before_first sep r)
  end.

(** [str(n)] for an [int]. *)
Definition str_of_int (n : Z) : string := NilZero.string_of_int (Z.to_int n).

Definition chars (s : string) : list ascii := list_ascii_of_string s.
Definition text (l : list ascii) : string := string_of_list_ascii l.

(** The longest prefix of [l] whose elements satisfy [p], and the rest. *)
Fixpoint span {A : Type} (p : A -> bool) (l : list A) : list A * list A :=
  match l with
  | [] => ([], [])
  | a :: r => if p a then let (xs, ys) := span p r in (a :: xs, ys) else ([], l)
  end.

Fixpoint starts_with (p l : list ascii) : bool :=
  match p, l with
  | [], _ => true
  | _ :: _, [] => false
  | a :: p', b :: l' => Ascii.eqb a b && starts_with p' l'
  end.

(** ** Python's operations on JSON values *)

(** Truth value of an object ([bool(v)]). *)
Definition truthy (v : json) : bool :=
  match v with
  | JNull => false
  | JBool b => b
  | JNum n => negb (n =? 0)%Z
  | JStr s => negb (String.eqb s "")
  | JArr xs => match xs with [] => false | _ => true end
  | JObj kvs => match kvs with [] => false | _ => true end
  end.

(** [a or b]. *)
Definition py_or (a b : json) : json := if truthy a then a else b.

Definition is_dict (v : json) : bool :=
  match v with JObj _ => true | _ => false end.

Definition is_list (v : json) : bool :=
  match v with JArr _ => true | _ => false end.

(** Lookup in a [dict]: the first binding of the key. *)
Fixpoint lookup (k : string) (kvs : list (string * json)) : option json :=
  match kvs with
  | [] => None
  | (k', v) :: r => if String.eqb k k' then Some v else lookup k r
  end.

(** [d.get(k, default)]; only a [dict] has the method. *)
Definition py_get (d : json) (k : string) (default : json) : result json :=
  match d with
  | JObj kvs => Ok (match lookup k kvs with Some v => v | None => default end)
  | _ => Raise AttributeError
  end.

(** [d[k]] for a [str] key. *)
Definition py_item (d : json) (k : string) : result json :=
  match d with
  | JObj kvs => match lookup k kvs with Some v => Ok v | None => Raise KeyError end
  | _ => Raise TypeError
  end.

(** [v[0]]. *)
Definition py_first (v : json) : result json :=
  match v with
  | JArr [] => Raise IndexError
  | JArr (x :: _) => Ok x
  | JStr EmptyString => Raise IndexError
  | JStr (String c _) => Ok (JStr (String c EmptyString))
  | JObj _ => Raise KeyError
  | _ => Raise TypeError
  end.

(** [v == s] for a [str] [s]. *)
Definition eq_str (s : string) (v : json) : bool :=
  match v with JStr t => String.eqb s t | _ => false end.

(** [k in v] for a [str] [k]: a key of a [dict], an element of a [list], a
    substring of a [str]; the other values are not containers. *)
Definition py_in (k : string) (v : json) : result bool :=
  match v with
  | JObj kvs => Ok (match lookup k kvs with Some _ => true | None => false end)
  | JArr xs => Ok (existsb (eq_str k) xs)
  | JStr s => Ok (contains k s)
  | _ => Raise TypeError
  end.

(** [for x in v]: the elements of a [list], the characters of a [str], the
    keys of a [dict]. *)
Definition py_iter (v : json) : result (list json) :=
  match v with
  | JArr xs => Ok xs
  | JStr s => Ok (map (fun c => JStr (String c EmptyString)) (chars s))
  | JObj kvs => Ok (map (fun kv => JStr (fst kv)) kvs)
  | _ => Raise TypeError
  end.

Definition int_value (v : json) : option Z :=
  match v with
  | JNum n => Some n
  | JBool b => Some (if b then 1 else 0)%Z
  | _ => None
  end.

(** [a + b]: concatenation of two [list]s or two [str]s, the sum of two
    numbers ([bool] is a subclass of [int]). *)
Definition py_add (a b : json) : result json :=
  match a, b with
  | JArr xs, JArr ys => Ok (JArr (xs ++ ys))
  | JStr s, JStr t => Ok (JStr (s ++ t))
  | _, _ =>
      match int_value a, int_value b with
      | Some m, Some n => Ok (JNum (m + n))
      | _, _ => Raise TypeError
      end
  end.

(** [s.split(sep)[0]] on a value: only a [str] has [split]. *)
Definition py_split_first (sep : string) (v : json) : result json :=
  match v with
  | JStr s => Ok (JStr (before_first sep s))
  | _ => Raise AttributeError
  end.

(** *** Sets of hashable values

    A [set] is the list of its elements in insertion order.  A [list] or a
    [dict] is unhashable; two hashable JSON values are equal when both are
    the same [str], both are [None], or both are numbers of the same value
    ([True == 1]). *)

Definition hashable (v : json) : bool :=
  match v with
  | JArr _ | JObj _ => false
  | _ => true
  end.

Definition py_eqb (a b : json) : bool :=
  match a, b with
  | JNull, JNull => true
  | JStr s, JStr t => String.eqb s t
  | _, _ =>
      match int_value a, int_value b with
      | Some m, Some n => (m =? n)%Z
      | _, _ => false
      end
  end.

Definition set_mem (x : json) (s : list json) : bool := existsb (py_eqb x) s.

(** [x in s]: hashing an unhashable [x] raises. *)
Definition py_in_set (x : json) (s : list json) : result bool :=
  if hashable x then Ok (set_mem x s) else Raise TypeError.

Definition set_add (x : json) (s : list json) : list json :=
  if set_mem x s then s else s ++ [x].

(** [s.update(xs)]: the elements are added one by one; at the first
    unhashable element the call raises, and what was added stays. *)
Fixpoint set_update (xs : list json) (s : list json) : list json * option exn :=
  match xs with
  | [] => (s, None)
  | x :: r => if hashable x then set_update r (set_add x s) else (s, Some TypeError)
  end.

(** [l[:n]] for an optional bound. *)
Definition py_take (n : option Z) (l : list json) : list json :=
  match n with
  | None => l
  | Some k =>
      if (0 <=? k)%Z then firstn (Z.to_nat k) l
      else firstn (List.length l - Z.to_nat (- k)) l
  end.

(** ** The interpreter and the fetcher *)

Class PyRuntime : Type := {
  (** [str(v)] for a value that is not a [str]. *)
  py_repr : json -> string;
  (** [list(s)]: the elements of a set in its iteration order. *)
  set_order : list json -> list json;
  set_order_perm : forall s, Permutation (set_order s) s
}.

(** [str(v)]. *)
Definition py_str `{PyRuntime} (v : json) : string :=
  match v with
  | JStr s => s
  | _ => py_repr v
  end.

(** [self.fetch_json(url)]: the document or the exception, and the world
    after the call. *)
Class Fetcher (World : Type) : Type := {
  fetch_json : json -> World -> result json * World
}.

(** ** The trailing-comma repair ([TrailingCommaJSONDecoder]) *)

(** A code point of a response body. *)
Definition codepoint : Type := N.

Definition codepoints (s : string) : list codepoint := map N_of_ascii (chars s).

Definition between (lo hi c : N) : bool := (lo <=? c)%N && (c <=? hi)%N.

(** The class [\s] of a [str] pattern, which is [str.isspace]: TAB..CR,
    FS..US, SPACE, NEL, NBSP, U+1680, U+2000..U+200A, U+2028, U+2029, U+202F,
    U+205F and U+3000. *)
Definition is_space (c : codepoint) : bool :=
  between 9 13 c || between 28 32 c || (c =? 133)%N || (c =? 160)%N
  || (c =? 5760)%N || between 8192 8202 c || (c =? 8232)%N || (c =? 8233)%N
  || (c =? 8239)%N || (c =? 8287)%N || (c =? 12288)%N.

Definition comma : codepoint := 44%N.

(** [\]] and [\}]. *)
Definition is_closer (c : codepoint) : bool := (c =? 93)%N || (c =? 125)%N.

(** A match of the pattern [,(\s*[\]\}])] at the head of [l]: group 1 and
    the text after the match.  [\s*] is greedy, and giving a blank back
    never helps, since no blank is a closing delimiter. *)
Definition match_trailing_comma (l : list codepoint)
  : option (list codepoint * list codepoint) :=
  match l with
  | c :: r =>
      if (c =? comma)%N then
        let (blanks, r') := span is_space r in
        match r' with
        | d :: r'' => if is_closer d then Some (blanks ++ [d], r'') else None
        | [] => None
        end
      else None
  | [] => None
  end.

(** [re.sub(r',(\s*[\]\}])', fix_commas, s)] with [fix_commas] returning
    group 1: the text is scanned from the left; where the pattern matches,
    the match is replaced and the scan resumes after it; elsewhere one
    character is copied.  [fuel] bounds the number of scan steps. *)
Fixpoint re_sub_trailing_commas (fuel : nat) (l : list codepoint) : list codepoint :=
  match fuel with
  | O => l
  | S fuel' =>
      match l with
      | [] => []
      | c :: r =>
          match match_trailing_comma l with
          | Some (group1, rest) => group1 ++ re_sub_trailing_commas fuel' rest
          | None => c :: re_sub_trailing_commas fuel' r
          end
      end
  end.

Definition fix_trailing_commas (s : list codepoint) : list codepoint :=
  re_sub_trailing_commas (List.length s) s.

(** [TrailingCommaJSONDecoder.decode]; [super_decode] is
    [json.JSONDecoder.decode]. *)
Definition TrailingCommaJSONDecoder_decode
    (super_decode : list codepoint -> result json) (s : list codepoint) : result json :=
  super_decode (fix_trailing_commas s).

(** The repair in the words of the specification: position [i] of the body
    holds a trailing comma when it holds a comma and the first character
    after it that is not a blank is a closing bracket or brace; the repaired
    body keeps exactly the other positions, in order. *)
Definition closes_after (l : list codepoint) : bool :=
  match snd (span is_space l) with
  | d :: _ => is_closer d
  | [] => false
  end.



(** ** The collection walk ([get_manifests_and_collections_ids]) *)

(** The three sets of the walk.  [collection_urls_queue] is a Python list
    used as a queue, [manifest_ids] and [collection_ids] are sets. *)
Record walk_state : Type := mkWalk {
  collection_urls_queue : list json;
  manifest_ids : list json;
  collection_ids : list json
}.

(** One call of [fetch_json] by the walk: the URL passed, and whether the
    iteration went on to record the URL in [collection_ids].  The list of
    these calls is kept for the proofs; the source has no such list. *)
Record fetch_call : Type := mkCall {
  call_url : json;
  call_visited : bool
}.

(** [max_manifests and len(manifest_ids) >= max_manifests]. *)
Definition limit_reached (max_manifests : option Z) (n : nat) : bool :=
  match max_manifests with
  | None => false
  | Some m => negb (m =? 0)%Z && (m <=? Z.of_nat n)%Z
  end.

Section Client.

Context {RT : PyRuntime} {World : Type} {F : Fetcher World}.

(** The [parent_url] only appears in the warning that is logged. *)
Definition _normalize_item_id (item : json) (parent_url : json) : result json :=
  a <- py_get item "id" JNull ;;
  id <- (if truthy a then Ok a else py_get item "@id" JNull) ;;
  Ok (if truthy id then id else JNull).

Definition _normalize_item_type (item : json) : result string :=
  a <- py_get item "type" JNull ;;
  type <- (if truthy a then Ok a else py_get item "@type" JNull) ;;
  type <- (if is_list type then py_first type else Ok type) ;;
  Ok (if truthy type then last_segment ":" (lower (py_str type)) else "").

(** Line 212: [data.get("items") or (data.get("collections", []) +
    data.get("manifests", []))]. *)
Definition child_items (data : json) : result json :=
  items <- py_get data "items" JNull ;;
  if truthy items then Ok items
  else
    collections <- py_get data "collections" (JArr []) ;;
    manifests <- py_get data "manifests" (JArr []) ;;
    py_add collections manifests.

(** The condition of the two comprehensions: [kind in
    self._normalize_item_type(item)]. *)
Definition has_kind (kind : string) (item : json) : result bool :=
  t <- _normalize_item_type item ;; Ok (contains kind t).

(** The identifiers of the items of one kind (lines 214-216 and 227-229):
    the items are filtered by kind, mapped to their identifiers, and the
    identifiers that are not truthy are dropped. *)
Definition item_ids_of_kind (kind : string) (items url : json) : result (list json) :=
  elems <- py_iter items ;;
  selected <- filterM (has_kind kind) elems ;;
  ids <- mapM (fun item => _normalize_item_id item url) selected ;;
  Ok (filter truthy ids).

(** Lines 212-217: the manifest set after the statement that ran last, and
    the child items, or the exception that ended the [try] block. *)
Definition collect_manifests (url data : json) (manifests : list json)
  : list json * result json :=
  match (items <- child_items data ;;
         ids <- item_ids_of_kind "manifest" items url ;;
         Ok (items, ids)) with
  | Raise e => (manifests, Raise e)
  | Ok (items, ids) =>
      match set_update ids manifests with
      | (manifests', None) => (manifests', Ok items)
      | (manifests', Some e) => (manifests', Raise e)
      end
  end.

(** The [while] loop (lines 198-244).  Each round takes one unit of [fuel];
    the result is [None] when the fuel runs out, and otherwise the state at
    the end of the loop or the exception that left it, with the world and
    the calls of [fetch_json] so far. *)
Fixpoint walk (fuel : nat) (max_manifests : option Z) (st : walk_state)
    (w : World) (calls : list fetch_call)
  : option (result walk_state * World * list fetch_call) :=
  match fuel with
  | O => None
  | S fuel' =>
      match collection_urls_queue st with
      | [] => Some (Ok st, w, calls)
      | url :: queue =>
          match py_in_set url (collection_ids st) with
          | Raise e => Some (Raise e, w, calls)
          | Ok true =>
              walk fuel' max_manifests
                (mkWalk queue (manifest_ids st) (collection_ids st)) w calls
          | Ok false =>
              match fetch_json url w with
              | (Raise e, w') =>
                  if is_fetch_error e then
                    walk fuel' max_manifests
                      (mkWalk queue (manifest_ids st) (collection_ids st)) w'
                      (calls ++ [mkCall url false])
                  else Some (Raise e, w', calls ++ [mkCall url false])
              | (Ok data, w') =>
                  match collect_manifests url data (manifest_ids st) with
                  | (manifests, Raise _) =>
                      walk fuel' max_manifests
                        (mkWalk queue manifests (collection_ids st)) w'
                        (calls ++ [mkCall url false])
                  | (manifests, Ok items) =>
                      if limit_reached max_manifests (List.length manifests) then
                        Some (Ok (mkWalk queue manifests (collection_ids st)), w',
                              calls ++ [mkCall url false])
                      else
                        match item_ids_of_kind "collection" items url with
                        | Raise _ =>
                            walk fuel' max_manifests
                              (mkWalk queue manifests (collection_ids st)) w'
                              (calls ++ [mkCall url false])
                        | Ok nested =>
                            walk fuel' max_manifests
                              (mkWalk (queue ++ nested) manifests
                                 (set_add url (collection_ids st))) w'
                              (calls ++ [mkCall url true])
                        end
                  end
              end
          end
      end
  end.

(** The value returned (lines 246-253). *)
Definition walk_result (max_manifests : option Z) (st : walk_state)
  : list json * list json :=
  (py_take max_manifests (set_order (manifest_ids st)),
   set_order (collection_ids st)).

Definition get_manifests_and_collections_ids (fuel : nat)
    (collection_url : string) (max_manifests : option Z) (w : World)
  : option (result (list json * list json) * World * list fetch_call) :=
  match walk fuel max_manifests (mkWalk [JStr collection_url] [] []) w [] with
  | None => None
  | Some (Raise e, w', calls) => Some (Raise e, w', calls)
  | Some (Ok st, w', calls) => Some (Ok (walk_result max_manifests st), w', calls)
  end.

End Client.

(** ** The image-URL synthesis ([get_manifest_images]) *)

Definition v3_context : string := "http://iiif.io/api/presentation/3/context.json".
Definition v2_context : string := "http://iiif.io/api/presentation/2/context.json".

(** What the method logs, by the line of the call. *)
Inductive log_record : Type :=
| ErrorParsingV3 (e : exn)
| ErrorUnsupportedContext (context : json)
| DebugNoImageIds
| ErrorFormatting (image_id : json) (e : exn)
| ErrorExtracting (e : exn).

(** A [for] loop that appends to [image_ids]: the identifiers appended by
    each round, in order, unless a round raises. *)
Definition for_each (f : json -> result (list json)) (v : json) : result (list json) :=
  elems <- py_iter v ;;
  found <- mapM f elems ;;
  Ok (List.concat found).

(** *** The walk of a version 3 manifest (lines 282-324) *)

(** One annotation: the identifiers it appends to [image_ids]. *)
Definition v3_annotation (annotation : json) : result (list json) :=
  if negb (is_dict annotation) then Ok []
  else
    body <- py_get annotation "body" (JObj []) ;;
    if negb (is_dict body) then Ok []
    else
      has_id <- py_in "id" body ;;
      image_id <-
        (if has_id then
           id <- py_item body "id" ;;
           full <- py_in "/full/" id ;;
           if full then py_split_first "/full/" id else Ok id
         else Ok JNull) ;;
      if truthy image_id then Ok [image_id]
      else
        has_service <- py_in "service" body ;;
        if has_service then
          service <- py_item body "service" ;;
          service <- (if is_list service && truthy service
                      then py_first service else Ok service) ;;
          if is_dict service then
            a <- py_get service "@id" JNull ;;
            image_id <- (if truthy a then Ok a else py_get service "id" JNull) ;;
            Ok [image_id]
          else Ok []
        else Ok [].

Definition v3_annotation_page (anno_page : json) : result (list json) :=
  if negb (is_dict anno_page) then Ok []
  else
    anno_items <- py_get anno_page "items" (JArr []) ;;
    for_each v3_annotation anno_items.

Definition v3_canvas (canvas : json) : result (list json) :=
  if negb (is_dict canvas) then Ok []
  else
    canvas_items <- py_get canvas "items" (JArr []) ;;
    for_each v3_annotation_page canvas_items.

Definition v3_image_ids (data : json) : result (list json) :=
  items <- py_get data "items" (JArr []) ;;
  for_each v3_canvas items.

(** *** The walk of a version 2 manifest (lines 332-347) *)

Definition v2_image (image : json) : result (list json) :=
  resource <- py_get image "resource" (JObj []) ;;
  direct <- py_in "@id" resource ;;
  if direct then
    resource <- py_item image "resource" ;;
    image_id <- py_item resource "@id" ;;
    full <- py_in "/full/" image_id ;;
    image_id <- (if full then py_split_first "/full/" image_id else Ok image_id) ;;
    Ok [image_id]
  else
    resource <- py_item image "resource" ;;
    service <- py_get resource "service" (JObj []) ;;
    by_service <- py_in "@id" service ;;
    if by_service then
      resource <- py_item image "resource" ;;
      service <- py_item resource "service" ;;
      image_id <- py_item service "@id" ;;
      Ok [image_id]
    else Ok [].

Definition v2_canvas (canvas : json) : result (list json) :=
  has_images <- py_in "images" canvas ;;
  if has_images then
    images <- py_item canvas "images" ;;
    for_each v2_image images
  else Ok [].

Definition v2_image_ids (data : json) : result (list json) :=
  has_sequences <- py_in "sequences" data ;;
  if has_sequences then
    sequences <- py_item data "sequences" ;;
    sequence <- py_first sequences ;;
    canvases <- py_item sequence "canvases" ;;
    for_each v2_canvas canvases
  else Ok [].

(** *** Formatting (lines 356-376) *)

Definition newline : ascii := "010".

(** [re.sub(r'/info\.json$', '', s)].  [$] matches at the end of the string
    and before a newline that ends the string; the two cannot both hold, so
    there is at most one match.  The text is examined from its end. *)
Definition strip_info_json (s : string) : string :=
  let r := rev (chars s) in
  let suffix := rev (chars "/info.json") in
  if starts_with suffix r then text (rev (skipn (List.length suffix) r))
  else
    match r with
    | c :: r' =>
        if Ascii.eqb c newline && starts_with suffix r'
        then text (rev (c :: skipn (List.length suffix) r'))
        else s
    | [] => s
    end.

(** The size and [/full/] of the request pattern, read backwards from the
    character before [/0/default.jpg]:
    [/full/(?:max|full|!\d+,\d+|\d+,\d+)]. *)
Definition size_before (r : list ascii) : bool :=
  starts_with (rev (chars "/full/max")) r
  || starts_with (rev (chars "/full/full")) r
  || (let (height, r1) := span is_digit r in
      match height, r1 with
      | _ :: _, c :: r2 =>
          Ascii.eqb c ","
          && (let (width, r3) := span is_digit r2 in
              match width with
              | _ :: _ =>
                  starts_with (rev (chars "/full/")) r3
                  || starts_with (rev (chars "/full/!")) r3
              | [] => false
              end)
      | _, _ => false
      end).

Definition request_before (r : list ascii) : bool :=
  let tail := rev (chars "/0/default.jpg") in
  starts_with tail r && size_before (skipn (List.length tail) r).

(** [re.search(r'/full/(?:max|full|!\d+,\d+|\d+,\d+)/0/default\.jpg$', s)]
    finds a match. *)
Definition is_image_request (s : string) : bool :=
  let r := rev (chars s) in
  request_before r
  || match r with
     | c :: r' => Ascii.eqb c newline && request_before r'
     | [] => false
     end.

Definition size_param (is_v2 : bool) (width height : Z) (exact use_max : bool) : string :=
  if use_max then (if is_v2 then "full" else "max")
  else ((if exact then "" else "!") ++ str_of_int width ++ "," ++ str_of_int height)%string.

(** The body of the [try] of one round of the formatting loop. *)
Definition format_image_url (is_v2 : bool) (width height : Z) (format : string)
    (exact use_max : bool) (image_id : json) : result string :=
  match image_id with
  | JStr s =>
      let s := strip_info_json s in
      if is_image_request s then Ok s
      else Ok (s ++ "/full/" ++ size_param is_v2 width height exact use_max
                 ++ "/0/default." ++ format)%string
  | _ => Raise TypeError
  end.

(** The formatting loop: a round that raises logs an error and appends
    nothing. *)
Fixpoint format_all (is_v2 : bool) (width height : Z) (format : string)
    (exact use_max : bool) (image_ids : list json)
  : list string * list log_record :=
  match image_ids with
  | [] => ([], [])
  | image_id :: rest =>
      let (urls, logs) := format_all is_v2 width height format exact use_max rest in
      match format_image_url is_v2 width height format exact use_max image_id with
      | Ok url => (url :: urls, logs)
      | Raise e => (urls, ErrorFormatting image_id e :: logs)
      end
  end.

Section Images.

Context {World : Type} {F : Fetcher World}.

(** The result or the exception raised to the caller, the world after the
    fetch, and the records logged. *)
Definition get_manifest_images (manifest_url : string) (width height : Z)
    (format : string) (exact use_max : bool) (w : World)
  : result (list string) * World * list log_record :=
  let (fetched, w') := fetch_json (JStr manifest_url) w in
  let finish (is_v2 : bool) (image_ids : list json) :=
    match image_ids with
    | [] => (Ok [], w', [DebugNoImageIds])
    | _ :: _ =>
        let (urls, logs) := format_all is_v2 width height format exact use_max image_ids in
        (Ok urls, w', logs)
    end in
  match (data <- fetched ;; context <- py_get data "@context" JNull ;; Ok (data, context)) with
  | Raise e => (Raise e, w', [ErrorExtracting e])
  | Ok (data, context) =>
      let is_v3 := eq_str v3_context context in
      let is_v2 := eq_str v2_context context in
      if is_v3 then
        match v3_image_ids data with
        | Raise e => (Ok [], w', [ErrorParsingV3 e])
        | Ok image_ids => finish is_v2 image_ids
        end
      else if is_v2 then
        match v2_image_ids data with
        | Raise e => (Raise e, w', [ErrorExtracting e])
        | Ok image_ids => finish is_v2 image_ids
        end
      else (Ok [], w', [ErrorUnsupportedContext context])
  end.

End Images.

(** ** The fetcher ([fetch_json]) *)

(** What [fetch_json] calls: the session of [requests] (the status code and
    the text of the response, or the exception of the transport), the
    decoder of the standard library, and the cache of [loam_iiif/cache.py],
    whose source is not part of this development.  [cache_get] returns
    [None] ([JNull]) for a URL that is not cached. *)
Record Collaborators (World : Type) : Type := {
  session_get : json -> World -> result (Z * list codepoint) * World;
  super_decode : list codepoint -> result json;
  cache_get : json -> World -> result json * World;
  cache_put : json -> json -> World -> result unit * World
}.

Arguments session_get {World} _ _ _.
Arguments super_decode {World} _ _.
Arguments cache_get {World} _ _ _.
Arguments cache_put {World} _ _ _ _.

(** [response.raise_for_status()]. *)
Definition raise_for_status (status : Z) : result unit :=
  if (400 <=? status)%Z && (status <? 600)%Z then Raise HTTPError else Ok tt.

(** [IIIFClient.fetch_json].  The three [except] clauses log and re-raise, so
    every exception reaches the caller.  [self.cache] is [None] exactly when
    [no_cache] is set. *)
Definition IIIFClient_fetch_json {World : Type} (c : Collaborators World)
    (skip_cache no_cache : bool) (url : json) (w : World) : result json * World :=
  let request (w : World) :=
    match session_get c url w with
    | (Raise e, w1) => (Raise e, w1)
    | (Ok (status, body), w1) =>
        match (_ <- raise_for_status status ;;
               TrailingCommaJSONDecoder_decode (super_decode c) body) with
        | Raise e => (Raise e, w1)
        | Ok data =>
            if negb no_cache then
              match cache_put c url data w1 with
              | (Raise e, w2) => (Raise e, w2)
              | (Ok _, w2) => (Ok data, w2)
              end
            else (Ok data, w1)
        end
    end in
  if negb no_cache && negb skip_cache then
    match cache_get c url w with
    | (Raise e, w0) => (Raise e, w0)
    | (Ok JNull, w0) => request w0
    | (Ok cached_data, w0) => (Ok cached_data, w0)
    end
  else request w.

Definition IIIFClient {World : Type} (c : Collaborators World)
    (skip_cache no_cache : bool) : Fetcher World :=
  {| fetch_json := IIIFClient_fetch_json c skip_cache no_cache |}.

(** ** Interpreters and sites for the examples *)

(** Sets iterate in insertion order; [str] of a number, of a boolean and of
    [None] is Python's.  No example takes the [str] of a list or of a dict;
    the empty string stands for it. *)
Definition plain_repr (v : json) : string :=
  match v with
  | JNull => "None"
  | JBool true => "True"
  | JBool false => "False"
  | JNum n => str_of_int n
  | _ => ""
  end.

Definition plain_runtime : PyRuntime :=
  {| py_repr := plain_repr;
     set_order := fun s => s;
     set_order_perm := fun s => Permutation_refl s |}.

(** A site without state: each URL always gives the same document or the
    same exception; a URL that is not a [str] cannot be requested. *)
Definition site (pages : string -> result json) : Fetcher unit :=
  {| fetch_json := fun url w =>
       (match url with JStr u => pages u | _ => Raise RequestException end, w) |}.

(** An item of a collection, in the version 3 and in the version 2 spelling. *)
Definition item (type id : string) : json :=
  JObj [("id", JStr id); ("type", JStr type)].

Definition item_v2 (type id : string) : json :=
  JObj [("@id", JStr id); ("@type", JStr type)].

(** ** The repair, by structural recursion

    [drop_trailing_commas] copies the body but for the commas that a closing
    delimiter follows; the proofs go through it. *)
Fixpoint drop_trailing_commas (l : list codepoint) : list codepoint :=
  match l with
  | [] => []
  | c :: r =>
      if (c =? comma)%N && closes_after r then drop_trailing_commas r
      else c :: drop_trailing_commas r
  end.

(** ** The calls of one walk *)



(** ** Small sites *)

Definition root_url : string := "https://example.org/collection".
Definition child_a : string := "https://example.org/collection/a".
Definition child_b : string := "https://example.org/collection/b".
Definition child_c : string := "https://example.org/collection/c".
Definition manifest_1 : string := "https://example.org/manifest/1".
Definition manifest_2 : string := "https://example.org/manifest/2".

Definition collection_doc (items : list json) : json := JObj [("items", JArr items)].

(** Every request ends in an HTTP error status. *)
Definition unreachable_site : Fetcher unit := site (fun _ => Raise HTTPError).


(** Two children of the root list the same collection, which holds two
    manifests. *)
Definition diamond_site : Fetcher unit :=
  site (fun u =>
    if String.eqb u root_url then
      Ok (collection_doc [item "Collection" child_a; item "Collection" child_b])
    else if String.eqb u child_a then Ok (collection_doc [item "Collection" child_c])
    else if String.eqb u child_b then Ok (collection_doc [item "Collection" child_c])
    else if String.eqb u child_c then
      Ok (collection_doc [item "Manifest" manifest_1; item "Manifest" manifest_2])
    else Raise HTTPError).

(** The root holds two manifests and a collection. *)
Definition small_site : Fetcher unit :=
  site (fun u =>
    if String.eqb u root_url then
      Ok (collection_doc [item "Manifest" manifest_1; item "Manifest" manifest_2;
                          item "Collection" child_a])
    else if String.eqb u child_a then Ok (collection_doc [])
    else Raise HTTPError).

(** The root lists two collections; the first holds a manifest and an item
    whose identifier is a list, the second holds a manifest. *)
Definition partial_update_site : Fetcher unit :=
  site (fun u =>
    if String.eqb u root_url then
      Ok (collection_doc [item "Collection" child_a; item "Collection" child_b])
    else if String.eqb u child_a then
      Ok (collection_doc
            [item "Manifest" manifest_1;
             JObj [("id", JArr [JStr manifest_2]); ("type", JStr "Manifest")]])
    else if String.eqb u child_b then Ok (collection_doc [item "Manifest" manifest_2])
    else Raise HTTPError).

(** The root holds one item, whose type names both kinds. *)
Definition hybrid_site : Fetcher unit :=
  site (fun u =>
    if String.eqb u root_url then
      Ok (collection_doc [item "ManifestCollection" child_a])
    else Raise HTTPError).


Definition walk_on (F : Fetcher unit) (fuel : nat) (max_manifests : option Z) :=
  @get_manifests_and_collections_ids plain_runtime unit F fuel root_url max_manifests tt.

(** ** The fields an item declares *)

(** [d.get(k, default)] on the bindings of a [dict]. *)
Definition field (k : string) (default : json) (kvs : list (string * json)) : json :=
  match lookup k kvs with
  | Some v => v
  | None => default
  end.

(** [item.get("type") or item.get("@type")] and
    [item.get("id") or item.get("@id")]. *)
Definition declared_type (kvs : list (string * json)) : json :=
  py_or (field "type" JNull kvs) (field "@type" JNull kvs).

Definition declared_id (kvs : list (string * json)) : json :=
  py_or (field "id" JNull kvs) (field "@id" JNull kvs).

(** The normalised type that a value of the type field stands for: its
    [str()] in lower case after the last colon, and the empty string for a
    falsy value. *)
Definition kind_of_type {RT : PyRuntime} (type : json) : string :=
  if truthy type then last_segment ":" (lower (py_str type)) else "".

(** What one item adds to the identifiers of the items of kind [word]: its
    identifier, when its normalised type [kind] contains [word] and the
    identifier is truthy. *)
Definition adds (word kind : string) (id : json) : list json :=
  if contains word kind then filter truthy [id] else [].

(** A document with an empty [items] and a legacy [manifests]. *)
Definition mixed_doc : json :=
  JObj [("items", JArr []); ("manifests", JArr [item_v2 "sc:Manifest" manifest_1])].

(** ** Sample manifests *)

(** A site that serves one document at every URL. *)
Definition serving (doc : json) : Fetcher unit := site (fun _ => Ok doc).

Definition manifest_url : string := "https://example.org/manifest/1".

(** A version 3 manifest with one canvas, one annotation page and one
    annotation, whose body has the given identifier. *)
Definition v3_manifest (body_id : json) : json :=
  JObj [("@context", JStr v3_context);
        ("items", JArr [JObj [("items", JArr [JObj [("items", JArr [
           JObj [("body", JObj [("id", body_id)])]])]])]])].


(** A document with no [@context]. *)
Definition no_context_doc : json := JObj [("label", JStr "untitled")].

Definition images_of (doc : json) :=
  @get_manifest_images unit (serving doc) manifest_url 768 2000 "jpg" false false tt.

(** ** File names of downloaded manifests ([cli.py]) *)

(** The class [\w] of a [str] pattern on the code points 0..255: the digits,
    the letters and the underscore of ASCII, and the letters and numbers of
    Latin-1. *)
Definition is_word (c : ascii) : bool :=
  ascii_in 48 57 c || ascii_in 65 90 c || ascii_in 95 95 c || ascii_in 97 122 c
  || ascii_in 170 170 c || ascii_in 178 179 c || ascii_in 181 181 c
  || ascii_in 185 186 c || ascii_in 188 190 c || ascii_in 192 214 c
  || ascii_in 216 246 c || ascii_in 248 255 c.

(** A character that the class [[^\w\-_\.]] does not match. *)
Definition is_filename_char (c : ascii) : bool :=
  is_word c || Ascii.eqb c "-" || Ascii.eqb c "_" || Ascii.eqb c ".".

(** [sanitize_filename]: [re.sub(r"[^\w\-_\.]", "_", name)]. *)
Fixpoint sanitize_filename (name : string) : string :=
  match name with
  | EmptyString => EmptyString
  | String c r =>
      String (if is_filename_char c then c else "_"%char) (sanitize_filename r)
  end.

(** Line 150 of [cli.py]:
    [sanitize_filename(manifest_url.split("/")[-1]) + ".json"]. *)
Definition manifest_filename (manifest_url : string) : string :=
  (sanitize_filename (last_segment "/" manifest_url) ++ ".json")%string.

(** ** One round of the loop

    [round] is the body of the [while] loop of [walk]: it either hands the
    next state to the loop ([Next]) or ends the loop ([Stop]), by an empty
    queue, by the [break] of line 221, or by an exception that is not
    caught. *)

Inductive round_result (World : Type) : Type :=
| Next (st : walk_state) (w : World) (calls : list fetch_call)
| Stop (r : result walk_state) (w : World) (calls : list fetch_call).

Arguments Next {World} st w calls.
Arguments Stop {World} r w calls.

Section Round.

Context {RT : PyRuntime} {World : Type} {F : Fetcher World}.

Definition round (max_manifests : option Z) (st : walk_state) (w : World)
    (calls : list fetch_call) : round_result World :=
  match collection_urls_queue st with
  | [] => Stop (Ok st) w calls
  | url :: queue =>
      match py_in_set url (collection_ids st) with
      | Raise e => Stop (Raise e) w calls
      | Ok true => Next (mkWalk queue (manifest_ids st) (collection_ids st)) w calls
      | Ok false =>
          match fetch_json url w with
          | (Raise e, w') =>
              if is_fetch_error e then
                Next (mkWalk queue (manifest_ids st) (collection_ids st)) w'
                  (calls ++ [mkCall url false])
              else Stop (Raise e) w' (calls ++ [mkCall url false])
          | (Ok data, w') =>
              match collect_manifests url data (manifest_ids st) with
              | (manifests, Raise _) =>
                  Next (mkWalk queue manifests (collection_ids st)) w'
                    (calls ++ [mkCall url false])
              | (manifests, Ok items) =>
                  if limit_reached max_manifests (List.length manifests) then
                    Stop (Ok (mkWalk queue manifests (collection_ids st))) w'
                      (calls ++ [mkCall url false])
                  else
                    match item_ids_of_kind "collection" items url with
                    | Raise _ =>
                        Next (mkWalk queue manifests (collection_ids st)) w'
                          (calls ++ [mkCall url false])
                    | Ok nested =>
                        Next (mkWalk (queue ++ nested) manifests
                                (set_add url (collection_ids st))) w'
                          (calls ++ [mkCall url true])
                    end
              end
          end
      end
  end.

End Round.

(** ** Predicates of the further properties *)

Definition not_comma (c : codepoint) : bool := negb (c =? comma)%N.

(** Every character of [s] satisfies [p]. *)
Definition all_chars (p : ascii -> bool) (s : string) : bool := forallb p (chars s).

(** A list that represents a Python set: no element occurs twice, and no
    two elements are equal for Python. *)
Definition is_set (s : list json) : Prop :=
  NoDup s /\ forall x y, In x s -> In y s -> x <> y -> py_eqb x y = false.

(** How a round can change the manifest set: not at all, or by lines
    212-217 on some document. *)
Definition manifest_step {RT : PyRuntime} (before after : list json) : Prop :=
  after = before
  \/ exists url data r, collect_manifests url data before = (after, r).

(** The number of URLs of [candidates] that are not in the visited set. *)
Definition unvisited (candidates visited : list json) : nat :=
  List.length (filter (fun u => negb (set_mem u visited)) candidates).

(** The document at [url] lists [id] as a manifest: [id] is one of the
    identifiers that lines 212-216 compute from it. *)
Definition lists_manifest {RT : PyRuntime} (doc : json -> result json)
    (url id : json) : Prop :=
  exists data items ids,
    doc url = Ok data
    /\ child_items data = Ok items
    /\ item_ids_of_kind "manifest" items url = Ok ids
    /\ In id ids.

(** The document that a site without state serves at a URL. *)
Definition site_doc (pages : string -> result json) (url : json) : result json :=
  match url with
  | JStr u => pages u
  | _ => Raise RequestException
  end.

(** The pages of [diamond_site]. *)
Definition diamond_pages (u : string) : result json :=
  if String.eqb u root_url then
    Ok (collection_doc [item "Collection" child_a; item "Collection" child_b])
  else if String.eqb u child_a then Ok (collection_doc [item "Collection" child_c])
  else if String.eqb u child_b then Ok (collection_doc [item "Collection" child_c])
  else if String.eqb u child_c then
    Ok (collection_doc [item "Manifest" manifest_1; item "Manifest" manifest_2])
  else Raise HTTPError.

(** The root lists a collection whose identifier is a list. *)
Definition unhashable_site : Fetcher unit :=
  site (fun u =>
    if String.eqb u root_url then
      Ok (collection_doc
            [JObj [("id", JArr [JStr child_a]); ("type", JStr "Collection")]])
    else Raise HTTPError).

(** ** Clients for the examples *)

(** A client whose cache is an association list in memory and whose session
    always answers with the same status and body; [decoded] is what the
    decoder of the standard library makes of the repaired body. *)
Definition memory_client (status : Z) (body : list codepoint) (decoded : result json)
  : Collaborators (list (json * json)) :=
  {| session_get := fun _ w => (Ok (status, body), w);
     super_decode := fun _ => decoded;
     cache_get := fun url w =>
       (match find (fun kv => py_eqb url (fst kv)) w with
        | Some kv => Ok (snd kv)
        | None => Ok JNull
        end, w);
     cache_put := fun url d w => (Ok tt, (url, d) :: w) |}.

(** The same session and decoder with a cache that forgets everything. *)
Definition forgetful_client (status : Z) (body : list codepoint) (decoded : result json)
  : Collaborators (list (json * json)) :=
  {| session_get := fun _ w => (Ok (status, body), w);
     super_decode := fun _ => decoded;
     cache_get := fun _ w => (Ok JNull, w);
     cache_put := fun _ _ w => (Ok tt, w) |}.

(** The document at [url] lists [id] as a nested collection (lines
    227-229). *)
Definition lists_collection {RT : PyRuntime} (doc : json -> result json)
    (url id : json) : Prop :=
  exists data items ids,
    doc url = Ok data
    /\ child_items data = Ok items
    /\ item_ids_of_kind "collection" items url = Ok ids
    /\ In id ids.

(** Some call of [fetch_json] was made on a URL equal to [url]. *)
Definition was_fetched (url : json) (calls : list fetch_call) : Prop :=
  exists c, In c calls /\ py_eqb url (call_url c) = true.

(** * Properties *)

(** ** The trailing-comma repair *)

Lemma span_spec {A : Type} (p : A -> bool) (l : list A) :
  l = fst (span p l) ++ snd (span p l)
  /\ forallb p (fst (span p l)) = true.
Proof.
  induction l as [|a r [IHapp IHall]]; simpl.
  - split; reflexivity.
  - destruct (p a) eqn:Hp.
    + destruct (span p r) as [xs ys]; simpl in *.
      split; [now rewrite IHapp at 1 | now rewrite Hp].
    + split; reflexivity.
Qed.

Lemma space_is_not_comma (c : codepoint) :
  is_space c = true -> (c =? comma)%N = false.
Proof.
  intros Hs. destruct (N.eqb_spec c comma) as [->|]; [discriminate Hs | reflexivity].
Qed.

Lemma closer_is_not_comma (c : codepoint) :
  is_closer c = true -> (c =? comma)%N = false.
Proof.
  intros Hc. destruct (N.eqb_spec c comma) as [->|]; [discriminate Hc | reflexivity].
Qed.

Lemma drop_skips_blanks (blanks rest : list codepoint) :
  forallb is_space blanks = true ->
  drop_trailing_commas (blanks ++ rest) = blanks ++ drop_trailing_commas rest.
Proof.
  induction blanks as [|b bs IH]; simpl; intros Hall; [reflexivity|].
  apply andb_true_iff in Hall as [Hb Hbs].
  rewrite (space_is_not_comma b Hb). simpl. now rewrite IH.
Qed.

Lemma re_sub_is_drop (fuel : nat) :
  forall l, (List.length l <= fuel)%nat ->
    re_sub_trailing_commas fuel l = drop_trailing_commas l.
Proof.
  induction fuel as [|fuel IH]; intros l Hlen.
  - destruct l; [reflexivity | simpl in Hlen; lia].
  - destruct l as [|c r]; [reflexivity|].
    cbn [re_sub_trailing_commas match_trailing_comma drop_trailing_commas].
    unfold closes_after.
    destruct (span_spec is_space r) as [Happ Hall].
    destruct (span is_space r) as [blanks r']; simpl in Happ, Hall |- *.
    subst r. simpl in Hlen. rewrite length_app in Hlen.
    destruct (c =? comma)%N; simpl; [|rewrite IH by (rewrite length_app; lia); reflexivity].
    destruct r' as [|d r'']; [rewrite IH by (rewrite length_app; lia); reflexivity|].
    destruct (is_closer d) eqn:Hd; [|rewrite IH by (rewrite length_app; lia); reflexivity].
    simpl in Hlen. rewrite IH by lia.
    rewrite drop_skips_blanks by exact Hall. simpl.
    rewrite (closer_is_not_comma d Hd). simpl.
    now rewrite <- app_assoc.
Qed.




Example repair_nested :
  fix_trailing_commas (codepoints "{a:[1,[2,3, ], ],b:{c:4,},}")
  = codepoints "{a:[1,[2,3 ] ],b:{c:4}}".
Proof. reflexivity. Qed.

Example repair_keeps_commas_between_elements :
  fix_trailing_commas (codepoints "[1,,]") = codepoints "[1,]"
  /\ fix_trailing_commas (codepoints "[1, 2]") = codepoints "[1, 2]".
Proof. split; reflexivity. Qed.

(** A comma before an ideographic space (U+3000) and a closing bracket. *)
Example repair_skips_unicode_blanks :
  fix_trailing_commas [91; 49; 44; 12288; 93]%N = [91; 49; 12288; 93]%N.
Proof. reflexivity. Qed.

(** ** The collection walk *)

Lemma set_order_nil {RT : PyRuntime} : set_order [] = [].
Proof. apply Permutation_nil. symmetry. apply set_order_perm. Qed.

Lemma py_take_nil (n : option Z) : py_take n [] = [].
Proof.
  destruct n as [k|]; [|reflexivity].
  unfold py_take. destruct (0 <=? k)%Z; apply firstn_nil.
Qed.

Lemma py_take_length (k : Z) (l : list json) :
  (0 <= k)%Z -> (Z.of_nat (List.length (py_take (Some k) l)) <= k)%Z.
Proof.
  intros Hk. unfold py_take.
  destruct (Z.leb_spec 0 k) as [_|Hneg]; [|lia].
  pose proof (firstn_le_length (Z.to_nat k) l). rewrite length_firstn. lia.
Qed.

Section WalkProperties.

Context {RT : PyRuntime} {World : Type} {F : Fetcher World}.

(** With the bound 0 the test of line 219 never holds, as without a bound. *)
Lemma walk_zero_limit (fuel : nat) :
  forall st w calls,
    walk fuel (Some 0%Z) st w calls = walk fuel None st w calls.
Proof.
  induction fuel as [|fuel IH]; intros st w calls; [reflexivity|].
  cbn [walk limit_reached Z.eqb negb andb].
  repeat match goal with
         | |- context [match ?x with _ => _ end] => destruct x
         end; auto.
Qed.

(** C10.  With [max_manifests = 0] the walk is the walk without a bound:
    for every amount of fuel it ends in the same way, after the same calls
    of [fetch_json], in the same world and with the same collection
    identifiers; the list of manifests returned is empty. *)
Theorem C10_zero_limit_walks_everything :
  forall (fuel : nat) (collection_url : string) (w : World),
    get_manifests_and_collections_ids fuel collection_url (Some 0%Z) w =
    match get_manifests_and_collections_ids fuel collection_url None w with
    | Some (Ok (_, collections), w', calls) => Some (Ok ([], collections), w', calls)
    | other => other
    end.
Proof.
  intros fuel collection_url w.
  unfold get_manifests_and_collections_ids.
  rewrite walk_zero_limit.
  destruct (walk fuel None _ w []) as [[[[st|e] w'] calls]|]; reflexivity.
Qed.

(** Every value returned is the value of lines 246-253 for some final
    state. *)
Lemma returned_is_walk_result (fuel : nat) (collection_url : string)
    (max_manifests : option Z) (w w' : World) (r : list json * list json)
    (calls : list fetch_call) :
  get_manifests_and_collections_ids fuel collection_url max_manifests w
    = Some (Ok r, w', calls) ->
  exists st, r = walk_result max_manifests st.
Proof.
  unfold get_manifests_and_collections_ids.
  destruct (walk fuel max_manifests _ w []) as [[[[st|e] w1] calls1]|];
    intros Heq; inversion Heq; subst. now exists st.
Qed.

(** C3, as the code has it.  With a bound [N >= 0], the list of manifests
    returned has at most [N] elements.  With a bound [N >= 1], a round of the
    loop that completes the update of the manifest set (line 217) with [N]
    or more elements ends the loop at once: whatever the queue still holds
    and however much fuel is left, the state at the end is the state of that
    round, and no other URL is fetched. *)
Theorem C3_limit_bounds_and_stops (N : Z) :
  ((0 <= N)%Z ->
   forall fuel collection_url w manifests collections w' calls,
     get_manifests_and_collections_ids fuel collection_url (Some N) w
       = Some (Ok (manifests, collections), w', calls) ->
     (Z.of_nat (List.length manifests) <= N)%Z)
  /\ ((1 <= N)%Z ->
      forall fuel url queue found visited w calls data w' found' items,
        py_in_set url visited = Ok false ->
        fetch_json url w = (Ok data, w') ->
        collect_manifests url data found = (found', Ok items) ->
        (N <= Z.of_nat (List.length found'))%Z ->
        walk (S fuel) (Some N) (mkWalk (url :: queue) found visited) w calls
          = Some (Ok (mkWalk queue found' visited), w', calls ++ [mkCall url false])).
Proof.
  split.
  - intros HN fuel collection_url w manifests collections w' calls Hrun.
    apply returned_is_walk_result in Hrun as [st Hst].
    unfold walk_result in Hst. inversion Hst; subst.
    apply py_take_length. exact HN.
  - intros HN fuel url queue found visited w calls data w' found' items
           Hnew Hfetch Hcollect Hsize.
    cbn [walk collection_urls_queue collection_ids manifest_ids].
    rewrite Hnew, Hfetch, Hcollect.
    unfold limit_reached.
    destruct (Z.eqb_spec N 0) as [->|_]; [lia|].
    destruct (Z.leb_spec N (Z.of_nat (List.length found'))) as [_|Hlt]; [|lia].
    reflexivity.
Qed.

(** C1, as the code has it.  When [fetch_json] raises a
    [RequestException] (an [HTTPError] included) or a [ValueError] on the
    root URL, the walk catches it as for any other URL: the queue is then
    empty and the method returns two empty lists to its caller. *)
Theorem C1_root_fetch_error_is_caught :
  forall (fuel : nat) (collection_url : string) (max_manifests : option Z)
         (w w' : World) (e : exn),
    fetch_json (JStr collection_url) w = (Raise e, w') ->
    is_fetch_error e = true ->
    get_manifests_and_collections_ids (S (S fuel)) collection_url max_manifests w
      = Some (Ok ([], []), w', [mkCall (JStr collection_url) false]).
Proof.
  intros fuel collection_url max_manifests w w' e Hfetch Hkind.
  unfold get_manifests_and_collections_ids.
  cbn [walk collection_urls_queue collection_ids manifest_ids py_in_set hashable
       set_mem existsb].
  rewrite Hfetch, Hkind. cbn [collection_urls_queue app].
  unfold walk_result. cbn [manifest_ids collection_ids].
  now rewrite set_order_nil, py_take_nil.
Qed.

End WalkProperties.

(** *** No URL is fetched again once it is recorded as visited *)

Lemma set_add_keeps (x u : json) (s : list json) : In u s -> In u (set_add x s).
Proof.
  unfold set_add. destruct (set_mem x s); [auto | intros H; apply in_or_app; now left].
Qed.


Lemma not_member_differs (x u : json) (s : list json) :
  set_mem x s = false -> In u s -> py_eqb x u = false.
Proof.
  unfold set_mem. intros Hmem Hin.
  destruct (py_eqb x u) eqn:Heq; [|reflexivity].
  assert (existsb (py_eqb x) s = true) by (apply existsb_exists; eauto).
  congruence.
Qed.




Section Revisits.

Context {RT : PyRuntime} {World : Type} {F : Fetcher World}.



End Revisits.

(** *** The root among the collections returned *)

Section RootRecorded.

Context {RT : PyRuntime} {World : Type} {F : Fetcher World}.

(** The loop only adds to [collection_ids]. *)
Lemma walk_keeps_visited (max_manifests : option Z) (fuel : nat) :
  forall st w calls st' w' calls' u,
    walk fuel max_manifests st w calls = Some (Ok st', w', calls') ->
    In u (collection_ids st) ->
    In u (collection_ids st').
Proof.
  induction fuel as [|fuel IH]; intros st w calls st' w' calls' u Hrun Hin;
    [discriminate Hrun|].
  destruct st as [queue found visited].
  cbn [walk collection_urls_queue collection_ids manifest_ids] in Hrun, Hin.
  destruct queue as [|url queue]; [now inversion Hrun; subst|].
  destruct (py_in_set url visited) as [[|]|e]; [now apply (IH _ _ _ _ _ _ u Hrun)| |discriminate Hrun].
  destruct (fetch_json url w) as [[data|e] w1].
  - destruct (collect_manifests url data found) as [found' [items|e]];
      [|now apply (IH _ _ _ _ _ _ u Hrun)].
    destruct (limit_reached max_manifests (List.length found'));
      [now inversion Hrun; subst|].
    destruct (item_ids_of_kind "collection" items url) as [nested|e];
      [|now apply (IH _ _ _ _ _ _ u Hrun)].
    apply (IH _ _ _ _ _ _ u Hrun). cbn [collection_ids]. now apply set_add_keeps.
  - destruct (is_fetch_error e); [now apply (IH _ _ _ _ _ _ u Hrun)|discriminate Hrun].
Qed.

(** When the round of the root runs to line 239 (the document is fetched,
    both comprehensions succeed and the bound is not reached in that round),
    the root is among the collection identifiers returned. *)
Lemma root_is_recorded_unless_limit :
  forall (fuel : nat) (collection_url : string) (max_manifests : option Z)
         (w w1 w' : World) (data items : json) (found nested manifests collections : list json)
         (calls : list fetch_call),
    fetch_json (JStr collection_url) w = (Ok data, w1) ->
    collect_manifests (JStr collection_url) data [] = (found, Ok items) ->
    limit_reached max_manifests (List.length found) = false ->
    item_ids_of_kind "collection" items (JStr collection_url) = Ok nested ->
    get_manifests_and_collections_ids fuel collection_url max_manifests w
      = Some (Ok (manifests, collections), w', calls) ->
    In (JStr collection_url) collections.
Proof.
  intros fuel collection_url max_manifests w w1 w' data items found nested
         manifests collections calls Hfetch Hfound Hlimit Hnested Hrun.
  destruct fuel as [|fuel]; [discriminate Hrun|].
  unfold get_manifests_and_collections_ids in Hrun.
  cbn [walk collection_urls_queue collection_ids manifest_ids py_in_set hashable
       set_mem existsb] in Hrun.
  rewrite Hfetch, Hfound, Hlimit, Hnested in Hrun.
  destruct (walk fuel max_manifests _ w1 _) as [[[[st|e] w2] calls2]|] eqn:Hwalk;
    try discriminate Hrun.
  inversion Hrun; subst.
  apply (Permutation_in _ (Permutation_sym (set_order_perm (collection_ids st)))).
  apply (walk_keeps_visited _ _ _ _ _ _ _ _ _ Hwalk).
  left. reflexivity.
Qed.

End RootRecorded.

(** ** Runs on small sites *)

Example diamond_walk :
  walk_on diamond_site 8 None =
  Some (Ok ([JStr manifest_1; JStr manifest_2],
            [JStr root_url; JStr child_a; JStr child_b; JStr child_c]),
        tt,
        [mkCall (JStr root_url) true; mkCall (JStr child_a) true;
         mkCall (JStr child_b) true; mkCall (JStr child_c) true]).
Proof. reflexivity. Qed.

(** C1 fails as stated: the fetch of the root URL raises [HTTPError], and the
    walk returns two empty lists instead of raising. *)
Lemma C1_root_error_does_not_propagate :
  @fetch_json unit unreachable_site (JStr root_url) tt = (Raise HTTPError, tt)
  /\ walk_on unreachable_site 2 None
     = Some (Ok ([], []), tt, [mkCall (JStr root_url) false]).
Proof. split; reflexivity. Qed.

Lemma C1_witness :
  walk_on unreachable_site 2 (Some 5%Z)
  = Some (Ok ([], []), tt, [mkCall (JStr root_url) false]).
Proof.
  exact (@C1_root_fetch_error_is_caught plain_runtime unit unreachable_site
           0 root_url (Some 5%Z) tt tt HTTPError eq_refl eq_refl).
Defined.



(** C3 fails as stated.  With the bound 0 the manifest set holds two
    identifiers after the round of the root, and the next collection is
    fetched all the same.  With the bound -1 one manifest is returned.  With
    the bound 1, the update of the manifest set raises on an unhashable
    identifier after it has added one identifier: the round of [child_a]
    ends with a set of one element, and [child_b] is fetched after it. *)
Lemma C3_limit_is_not_always_honoured :
  walk_on small_site 3 (Some 0%Z)
    = Some (Ok ([], [JStr root_url; JStr child_a]), tt,
            [mkCall (JStr root_url) true; mkCall (JStr child_a) true])
  /\ walk_on small_site 3 (Some (-1)%Z)
     = Some (Ok ([JStr manifest_1], []), tt, [mkCall (JStr root_url) false])
  /\ @collect_manifests plain_runtime (JStr child_a)
       (collection_doc [item "Manifest" manifest_1;
                        JObj [("id", JArr [JStr manifest_2]); ("type", JStr "Manifest")]])
       []
     = ([JStr manifest_1], Raise TypeError)
  /\ walk_on partial_update_site 4 (Some 1%Z)
     = Some (Ok ([JStr manifest_1], [JStr root_url]), tt,
             [mkCall (JStr root_url) true; mkCall (JStr child_a) false;
              mkCall (JStr child_b) false]).
Proof. repeat split; reflexivity. Qed.

Lemma C3_witness :
  (Z.of_nat (List.length (@nil json)) <= 0)%Z
  /\ (Z.of_nat (List.length [JStr manifest_1]) <= 1)%Z
  /\ @walk plain_runtime unit small_site 1 (Some 1%Z)
       (mkWalk [JStr root_url; JStr child_b] [] []) tt []
     = Some (Ok (mkWalk [JStr child_b] [JStr manifest_1; JStr manifest_2] []), tt,
             [mkCall (JStr root_url) false]).
Proof.
  assert (Hzero : (0 <= 0)%Z) by lia.
  assert (Hone : (1 <= 1)%Z) by lia.
  assert (Hpos : (0 <= 1)%Z) by lia.
  destruct (@C3_limit_bounds_and_stops plain_runtime unit small_site 0%Z)
    as [Hbound0 _].
  destruct (@C3_limit_bounds_and_stops plain_runtime unit small_site 1%Z)
    as [Hbound Hstop].
  split; [|split].
  - apply (Hbound0 Hzero 3%nat root_url tt [] [JStr root_url; JStr child_a] tt
             [mkCall (JStr root_url) true; mkCall (JStr child_a) true]).
    reflexivity.
  - apply (Hbound Hpos 3%nat root_url tt [JStr manifest_1] [] tt
             [mkCall (JStr root_url) false]).
    reflexivity.
  - apply (Hstop Hone 0%nat (JStr root_url) [JStr child_b] [] [] tt []
             (collection_doc [item "Manifest" manifest_1; item "Manifest" manifest_2;
                              item "Collection" child_a])
             tt [JStr manifest_1; JStr manifest_2]
             (JArr [item "Manifest" manifest_1; item "Manifest" manifest_2;
                    item "Collection" child_a])).
    + reflexivity.
    + reflexivity.
    + reflexivity.
    + simpl. lia.
Defined.

(** C8: the root is fetched, its items are extracted, and the bound of one
    manifest is reached in that round; line 221 leaves the loop before line
    239 records the root, and the collection identifiers returned are empty. *)
Theorem C8_root_missing_when_limit_is_reached :
  @fetch_json unit small_site (JStr root_url) tt
    = (Ok (collection_doc [item "Manifest" manifest_1; item "Manifest" manifest_2;
                           item "Collection" child_a]), tt)
  /\ walk_on small_site 3 (Some 1%Z)
     = Some (Ok ([JStr manifest_1], []), tt, [mkCall (JStr root_url) false])
  /\ walk_on small_site 3 None
     = Some (Ok ([JStr manifest_1; JStr manifest_2], [JStr root_url; JStr child_a]), tt,
             [mkCall (JStr root_url) true; mkCall (JStr child_a) true]).
Proof. repeat split; reflexivity. Qed.

(** ** The child items and their classification *)

(** C4, as the code has it.  The child items of a collection document are
    its [items] field when that field is present and truthy (a list that is
    not empty); when [items] is absent or falsy (an empty list, [null]) they
    are [collections + manifests], each defaulting to the empty list. *)
Theorem C4_items_first_unless_empty :
  forall (kvs : list (string * json)),
    (forall items,
        lookup "items" kvs = Some items -> truthy items = true ->
        child_items (JObj kvs) = Ok items)
    /\ (truthy (field "items" JNull kvs) = false ->
        child_items (JObj kvs)
        = py_add (field "collections" (JArr []) kvs) (field "manifests" (JArr []) kvs))
    /\ (forall collections manifests,
        truthy (field "items" JNull kvs) = false ->
        field "collections" (JArr []) kvs = JArr collections ->
        field "manifests" (JArr []) kvs = JArr manifests ->
        child_items (JObj kvs) = Ok (JArr (collections ++ manifests))).
Proof.
  intros kvs. unfold child_items, py_get, field. cbn [bind].
  repeat split.
  - intros items Hitems Htrue. now rewrite Hitems, Htrue.
  - intros Hfalse. now rewrite Hfalse.
  - intros collections manifests Hfalse Hc Hm. now rewrite Hfalse, Hc, Hm.
Qed.

(** C4 fails as stated: [items] is present (and empty), and the child items
    are the legacy [manifests]. *)
Lemma C4_empty_items_falls_back :
  lookup "items" [("items", JArr []); ("manifests", JArr [item_v2 "sc:Manifest" manifest_1])]
    = Some (JArr [])
  /\ child_items mixed_doc = Ok (JArr [item_v2 "sc:Manifest" manifest_1]).
Proof. split; reflexivity. Qed.

Lemma C4_witness :
  child_items (collection_doc [item "Manifest" manifest_1])
    = Ok (JArr [item "Manifest" manifest_1])
  /\ child_items mixed_doc = Ok (JArr ([] ++ [item_v2 "sc:Manifest" manifest_1])).
Proof.
  split.
  - apply (proj1 (C4_items_first_unless_empty
                    [("items", JArr [item "Manifest" manifest_1])])); reflexivity.
  - apply (proj2 (proj2 (C4_items_first_unless_empty
                    [("items", JArr []);
                     ("manifests", JArr [item_v2 "sc:Manifest" manifest_1])])));
      reflexivity.
Defined.

Section Classification.

Context {RT : PyRuntime}.

Lemma normalize_item_id_dict (kvs : list (string * json)) (url : json) :
  _normalize_item_id (JObj kvs) url
  = Ok (if truthy (declared_id kvs) then declared_id kvs else JNull).
Proof.
  unfold declared_id, py_or, field, _normalize_item_id, py_get. cbn [bind].
  destruct (truthy match lookup "id" kvs with Some v => v | None => JNull end);
    reflexivity.
Qed.

End Classification.

(** C6 fails as stated: the type [ManifestCollection] passes both tests, so
    the identifier of the item is returned as a manifest and is also queued
    and fetched as a collection. *)
Lemma C6_item_of_both_kinds :
  @item_ids_of_kind plain_runtime "manifest"
     (JArr [item "ManifestCollection" child_a]) (JStr root_url) = Ok [JStr child_a]
  /\ @item_ids_of_kind plain_runtime "collection"
     (JArr [item "ManifestCollection" child_a]) (JStr root_url) = Ok [JStr child_a]
  /\ walk_on hybrid_site 3 None
     = Some (Ok ([JStr child_a], [JStr root_url]), tt,
             [mkCall (JStr root_url) true; mkCall (JStr child_a) false]).
Proof. repeat split; reflexivity. Qed.

(** ** The image-URL synthesis *)

Example v3_image_url :
  @get_manifest_images unit (serving (v3_manifest (JStr "https://ex.org/img/1")))
    manifest_url 100 200 "jpg" false false tt
  = (Ok ["https://ex.org/img/1/full/!100,200/0/default.jpg"], tt, []).
Proof. reflexivity. Qed.

Example formatted_request_is_kept :
  format_image_url true 768 2000 "jpg" false false
    (JStr "https://ex.org/img/1/full/800,600/0/default.jpg")
  = Ok "https://ex.org/img/1/full/800,600/0/default.jpg"
  /\ format_image_url false 768 2000 "jpg" true true
       (JStr "https://ex.org/img/1/info.json")
     = Ok "https://ex.org/img/1/full/max/0/default.jpg".
Proof. split; reflexivity. Qed.

Lemma eq_str_false (s : string) (v : json) : v <> JStr s -> eq_str s v = false.
Proof.
  intros Hne. destruct v; try reflexivity. simpl.
  destruct (String.eqb_spec s s0) as [->|]; [now contradict Hne | reflexivity].
Qed.



Section ImageProperties.

Context {World : Type} {F : Fetcher World}.

(** C9.  When the manifest fetched is a JSON object whose [@context] is
    absent or is neither of the two context URLs, [get_manifest_images] logs
    the error of line 349 and returns the empty list; it does not raise. *)
Theorem C9_unrecognised_context_gives_empty_list :
  forall (url : string) (width height : Z) (format : string) (exact use_max : bool)
         (w w' : World) (kvs : list (string * json)),
    fetch_json (JStr url) w = (Ok (JObj kvs), w') ->
    field "@context" JNull kvs <> JStr v3_context ->
    field "@context" JNull kvs <> JStr v2_context ->
    get_manifest_images url width height format exact use_max w
    = (Ok [], w', [ErrorUnsupportedContext (field "@context" JNull kvs)]).
Proof.
  intros url width height format exact use_max w w' kvs Hfetch Hv3 Hv2.
  unfold get_manifest_images. rewrite Hfetch. cbn [bind py_get].
  fold (field "@context" JNull kvs).
  now rewrite (eq_str_false _ _ Hv3), (eq_str_false _ _ Hv2).
Qed.



End ImageProperties.



Lemma C9_witness :
  images_of no_context_doc = (Ok [], tt, [ErrorUnsupportedContext JNull]).
Proof.
  apply (@C9_unrecognised_context_gives_empty_list unit (serving no_context_doc)
           manifest_url 768 2000 "jpg" false false tt tt [("label", JStr "untitled")]).
  - reflexivity.
  - discriminate.
  - discriminate.
Defined.

(** * Further properties *)

(** ** The repair only removes commas *)

Lemma drop_keeps_other_characters (l : list codepoint) :
  filter not_comma (drop_trailing_commas l) = filter not_comma l.
Proof.
  induction l as [|c r IH]; [reflexivity|].
  cbn [drop_trailing_commas]. unfold not_comma at 2. cbn [filter].
  destruct (c =? comma)%N eqn:Hc; cbn [andb negb].
  - destruct (closes_after r); [exact IH|].
    cbn [filter]. unfold not_comma at 1. rewrite Hc. exact IH.
  - cbn [filter]. unfold not_comma at 1. rewrite Hc. cbn [negb]. now rewrite IH.
Qed.

Lemma drop_is_shorter (l : list codepoint) :
  (List.length (drop_trailing_commas l) <= List.length l)%nat.
Proof.
  induction l as [|c r IH]; [reflexivity|].
  cbn [drop_trailing_commas].
  destruct ((c =? comma)%N && closes_after r); simpl; lia.
Qed.

(** X1.  The repair of a response body keeps every character that is not a
    comma, in its order, and never makes the body longer: what it removes
    are commas only. *)
Theorem fix_trailing_commas_removes_only_commas :
  forall (body : list codepoint),
    filter not_comma (fix_trailing_commas body) = filter not_comma body
    /\ (List.length (fix_trailing_commas body) <= List.length body)%nat.
Proof.
  intros body. unfold fix_trailing_commas.
  rewrite re_sub_is_drop by lia.
  split; [apply drop_keeps_other_characters | apply drop_is_shorter].
Qed.

Lemma drop_unchanged_iff (l : list codepoint) :
  drop_trailing_commas l = l <->
  (forall pre c r, l = pre ++ c :: r -> (c =? comma)%N && closes_after r = false).
Proof.
  induction l as [|c r IH].
  - split; [|reflexivity]. intros _ pre c r H. destruct pre; discriminate H.
  - cbn [drop_trailing_commas]. split.
    + intros Hsame pre c0 r0 Hsplit.
      destruct ((c =? comma)%N && closes_after r) eqn:Hhead.
      * pose proof (drop_is_shorter r) as Hlen. rewrite Hsame in Hlen.
        simpl in Hlen. lia.
      * injection Hsame as Hrest.
        destruct pre as [|p pre]; simpl in Hsplit; injection Hsplit as -> Hr.
        -- subst r0. exact Hhead.
        -- apply (proj1 IH Hrest pre c0 r0 Hr).
    + intros Hnone.
      rewrite (Hnone [] c r eq_refl). f_equal.
      apply IH. intros pre c0 r0 Hsplit.
      apply (Hnone (c :: pre) c0 r0). simpl. now rewrite Hsplit.
Qed.

(** X2.  The repair leaves a body as it is exactly when the body has no comma
    that is followed, blanks apart, by a closing bracket or brace. *)
Theorem fix_trailing_commas_unchanged_iff :
  forall (body : list codepoint),
    fix_trailing_commas body = body <->
    (forall before c after,
        body = before ++ c :: after ->
        (c =? comma)%N && closes_after after = false).
Proof.
  intros body. unfold fix_trailing_commas.
  rewrite re_sub_is_drop by lia. apply drop_unchanged_iff.
Qed.

(** ** File names *)

Lemma sanitize_filename_chars (name : string) :
  all_chars is_filename_char (sanitize_filename name) = true.
Proof.
  unfold all_chars. induction name as [|c r IH]; [reflexivity|].
  cbn [sanitize_filename chars list_ascii_of_string forallb].
  fold (chars (sanitize_filename r)). rewrite IH, andb_true_r.
  destruct (is_filename_char c) eqn:Hc; [exact Hc | reflexivity].
Qed.

Lemma sanitize_filename_fixes_safe_names (name : string) :
  all_chars is_filename_char name = true -> sanitize_filename name = name.
Proof.
  unfold all_chars. induction name as [|c r IH]; [reflexivity|].
  cbn [chars list_ascii_of_string forallb sanitize_filename]. fold (chars r).
  intros Hall. apply andb_true_iff in Hall as [Hc Hr].
  now rewrite Hc, IH.
Qed.

Lemma all_chars_app (p : ascii -> bool) (s t : string) :
  all_chars p (s ++ t)%string = all_chars p s && all_chars p t.
Proof.
  unfold all_chars. induction s as [|c r IH]; [reflexivity|].
  cbn [append chars list_ascii_of_string forallb].
  fold (chars (r ++ t)%string) (chars r). now rewrite IH, andb_assoc.
Qed.

Lemma all_chars_excludes (p : ascii -> bool) (c : ascii) (s : string) :
  all_chars p s = true -> p c = false -> has_char c s = false.
Proof.
  unfold all_chars. intros Hall Hc. induction s as [|d r IH]; [reflexivity|].
  cbn [chars list_ascii_of_string forallb] in Hall. fold (chars r) in Hall.
  apply andb_true_iff in Hall as [Hd Hr].
  cbn [has_char]. rewrite (IH Hr), orb_false_r.
  destruct (Ascii.eqb_spec c d) as [->|]; [congruence | reflexivity].
Qed.

(** X3.  [sanitize_filename] keeps the length of a name, yields only word
    characters, hyphens, underscores and dots, changes nothing in a name made
    of such characters, and so gives the same result when applied twice. *)
Theorem sanitize_filename_is_a_projection :
  forall (name : string),
    String.length (sanitize_filename name) = String.length name
    /\ all_chars is_filename_char (sanitize_filename name) = true
    /\ (all_chars is_filename_char name = true -> sanitize_filename name = name)
    /\ sanitize_filename (sanitize_filename name) = sanitize_filename name.
Proof.
  intros name. split; [|split; [|split]].
  - induction name as [|c r IH]; [reflexivity|]. simpl. now rewrite IH.
  - apply sanitize_filename_chars.
  - apply sanitize_filename_fixes_safe_names.
  - apply sanitize_filename_fixes_safe_names, sanitize_filename_chars.
Qed.

(** X4.  The name of the file in which [cli.py] saves a manifest is made of word
    characters, hyphens, underscores and dots only: whatever the manifest
    URL, it contains no slash and no backslash, and it ends in [.json]. *)
Theorem manifest_filename_has_no_separator :
  forall (manifest_url : string),
    all_chars is_filename_char (manifest_filename manifest_url) = true
    /\ has_char "/" (manifest_filename manifest_url) = false
    /\ has_char "\" (manifest_filename manifest_url) = false
    /\ exists stem, manifest_filename manifest_url = (stem ++ ".json")%string.
Proof.
  intros manifest_url.
  assert (Hall : all_chars is_filename_char (manifest_filename manifest_url) = true).
  { unfold manifest_filename. rewrite all_chars_app, sanitize_filename_chars. reflexivity. }
  split; [exact Hall|]. split; [|split].
  - apply (all_chars_excludes _ _ _ Hall). reflexivity.
  - apply (all_chars_excludes _ _ _ Hall). reflexivity.
  - unfold manifest_filename. eauto.
Qed.

(** ** The normalised type of an item *)

Lemma lower_char_idempotent (c : ascii) : lower_char (lower_char c) = lower_char c.
Proof.
  destruct c as [[|] [|] [|] [|] [|] [|] [|] [|]]; reflexivity.
Qed.

Lemma lower_idempotent (s : string) : lower (lower s) = lower s.
Proof.
  induction s as [|c r IH]; [reflexivity|].
  simpl. now rewrite lower_char_idempotent, IH.
Qed.

Lemma last_segment_has_no_separator (sep : ascii) (s : string) :
  has_char sep (last_segment sep s) = false.
Proof.
  induction s as [|c r IH]; [reflexivity|].
  cbn [last_segment]. destruct (has_char sep r) eqn:Hr; [exact IH|].
  destruct (Ascii.eqb_spec c sep) as [->|Hne]; [exact Hr|].
  cbn [has_char]. rewrite Hr, orb_false_r.
  destruct (Ascii.eqb_spec sep c) as [->|]; [now contradict Hne | reflexivity].
Qed.

Lemma last_segment_stays_lower (sep : ascii) (s : string) :
  lower s = s -> lower (last_segment sep s) = last_segment sep s.
Proof.
  induction s as [|c r IH]; [reflexivity|].
  intros Hlow. simpl in Hlow. injection Hlow as Hc Hr.
  cbn [last_segment]. destruct (has_char sep r); [now apply IH|].
  destruct (Ascii.eqb c sep); [exact Hr|].
  simpl. now rewrite Hc, Hr.
Qed.

(** X5.  Whatever the item and whatever [str()] gives for its type, a normalised
    type returned by [_normalize_item_type] contains no colon and is in lower
    case. *)
Theorem normalized_type_is_lower_without_colon :
  forall (RT : PyRuntime) (item : json) (t : string),
    _normalize_item_type item = Ok t ->
    has_char ":" t = false /\ lower t = t.
Proof.
  intros RT item t. unfold _normalize_item_type.
  destruct (py_get item "type" JNull) as [a|e]; cbn [bind]; [|discriminate].
  destruct (if truthy a then Ok a else py_get item "@type" JNull) as [ty|e];
    cbn [bind]; [|discriminate].
  destruct (if is_list ty then py_first ty else Ok ty) as [ty'|e];
    cbn [bind]; [|discriminate].
  destruct (truthy ty'); intros Heq; injection Heq as <-.
  - split; [apply last_segment_has_no_separator|].
    apply last_segment_stays_lower, lower_idempotent.
  - split; reflexivity.
Qed.

(** ** The walk, round by round *)

Section WalkRounds.

Context {RT : PyRuntime} {World : Type} {F : Fetcher World}.

Lemma walk_round (max_manifests : option Z) (fuel : nat) (st : walk_state)
    (w : World) (calls : list fetch_call) :
  walk (S fuel) max_manifests st w calls =
  match round max_manifests st w calls with
  | Next st' w' calls' => walk fuel max_manifests st' w' calls'
  | Stop r w' calls' => Some (r, w', calls')
  end.
Proof.
  cbn [walk]. unfold round.
  repeat match goal with
         | |- context [match ?x with _ => _ end] => destruct x
         end; reflexivity.
Qed.

(** A property of the state and of the calls that every round keeps holds
    of the state in which the loop stops. *)
Lemma walk_stops_in_invariant (max_manifests : option Z)
    (Inv : walk_state -> list fetch_call -> Prop) :
  (forall st w calls st' w' calls',
      Inv st calls ->
      round max_manifests st w calls = Next st' w' calls' ->
      Inv st' calls') ->
  forall fuel st w calls r w' calls',
    walk fuel max_manifests st w calls = Some (r, w', calls') ->
    Inv st calls ->
    exists st0 w0 calls0,
      Inv st0 calls0 /\ round max_manifests st0 w0 calls0 = Stop r w' calls'.
Proof.
  intros Hkeep. induction fuel as [|fuel IH]; intros st w calls r w' calls' Hrun Hinv;
    [discriminate Hrun|].
  rewrite walk_round in Hrun.
  destruct (round max_manifests st w calls) as [st1 w1 calls1|r1 w1 calls1] eqn:Hround.
  - apply (IH _ _ _ _ _ _ Hrun). exact (Hkeep _ _ _ _ _ _ Hinv Hround).
  - injection Hrun as -> -> ->. now exists st, w, calls.
Qed.

(** X6.  An exception leaves the walk only when a queued URL is unhashable
    ([TypeError] at line 201) or when [fetch_json] raises an exception that
    is neither a [RequestException] nor a [ValueError]: the walk never
    raises a fetch error to its caller, for the root URL or for any other. *)
Theorem walk_never_raises_a_fetch_error :
  forall (fuel : nat) (collection_url : string) (max_manifests : option Z)
         (w w' : World) (e : exn) (calls : list fetch_call),
    get_manifests_and_collections_ids fuel collection_url max_manifests w
      = Some (Raise e, w', calls) ->
    is_fetch_error e = false
    /\ (e = TypeError \/ exists url w0, fetch_json url w0 = (Raise e, w')).
Proof.
  intros fuel collection_url max_manifests w w' e calls Hrun.
  unfold get_manifests_and_collections_ids in Hrun.
  destruct (walk fuel max_manifests _ w []) as [[[r w1] calls1]|] eqn:Hwalk;
    [|discriminate Hrun].
  destruct r as [st|e1]; [discriminate Hrun|]. injection Hrun as -> -> ->.
  destruct (walk_stops_in_invariant max_manifests (fun _ _ => True)
              (fun _ _ _ _ _ _ _ _ => I) _ _ _ _ _ _ _ Hwalk I)
    as (st0 & w0 & calls0 & _ & Hstop).
  unfold round in Hstop.
  destruct (collection_urls_queue st0) as [|url queue]; [discriminate Hstop|].
  unfold py_in_set in Hstop.
  destruct (hashable url).
  - destruct (set_mem url (collection_ids st0)); [discriminate Hstop|].
    destruct (fetch_json url w0) as [[data|e1] w1] eqn:Hfetch.
    + destruct (collect_manifests url data (manifest_ids st0)) as [found [items|e2]];
        [|discriminate Hstop].
      destruct (limit_reached max_manifests (List.length found)); [discriminate Hstop|].
      destruct (item_ids_of_kind "collection" items url); discriminate Hstop.
    + destruct (is_fetch_error e1) eqn:Hkind; [discriminate Hstop|].
      injection Hstop as -> -> _. split; [exact Hkind|]. right. now exists url, w0.
  - injection Hstop as <- _ _. split; [reflexivity | now left].
Qed.

(** X7.  The collection identifiers returned are, up to their order, the URLs of
    the calls of [fetch_json] whose round ran to line 239, one identifier
    for each such call. *)
Theorem collections_are_the_visited_calls :
  forall (fuel : nat) (collection_url : string) (max_manifests : option Z)
         (w w' : World) (manifests collections : list json) (calls : list fetch_call),
    get_manifests_and_collections_ids fuel collection_url max_manifests w
      = Some (Ok (manifests, collections), w', calls) ->
    Permutation collections (map call_url (filter call_visited calls)).
Proof.
  intros fuel collection_url max_manifests w w' manifests collections calls Hrun.
  unfold get_manifests_and_collections_ids in Hrun.
  destruct (walk fuel max_manifests _ w []) as [[[r w1] calls1]|] eqn:Hwalk;
    [|discriminate Hrun].
  destruct r as [st|e1]; [|discriminate Hrun]. injection Hrun as <- <- -> ->.
  set (Inv := fun (st : walk_state) (cs : list fetch_call) =>
                collection_ids st = map call_url (filter call_visited cs)).
  assert (Hkeep : forall st w calls st' w' calls',
             Inv st calls -> round max_manifests st w calls = Next st' w' calls' ->
             Inv st' calls').
  { unfold Inv. intros [queue found visited] w0 calls0 st' w0' calls0' Hinv Hround.
    unfold round in Hround. cbn [collection_urls_queue collection_ids manifest_ids] in *.
    destruct queue as [|url queue]; [discriminate Hround|].
    unfold py_in_set in Hround.
    destruct (hashable url); [|discriminate Hround].
    destruct (set_mem url visited) eqn:Hnew;
      [injection Hround as <- _ <-; exact Hinv|].
    assert (Hskip : visited = map call_url (filter call_visited (calls0 ++ [mkCall url false]))).
    { rewrite filter_app. simpl. now rewrite app_nil_r. }
    destruct (fetch_json url w0) as [[data|e1] w1'].
    - destruct (collect_manifests url data found) as [found' [items|e2]];
        [|injection Hround as <- _ <-; exact Hskip].
      destruct (limit_reached max_manifests (List.length found')); [discriminate Hround|].
      destruct (item_ids_of_kind "collection" items url) as [nested|e2];
        [|injection Hround as <- _ <-; exact Hskip].
      injection Hround as <- _ <-. cbn [collection_ids].
      unfold set_add. rewrite Hnew, filter_app, map_app, <- Hinv. reflexivity.
    - destruct (is_fetch_error e1); [|discriminate Hround].
      injection Hround as <- _ <-. exact Hskip. }
  destruct (walk_stops_in_invariant max_manifests Inv Hkeep _ _ _ _ _ _ _ Hwalk eq_refl)
    as (st0 & w0 & calls0 & Hinv & Hstop).
  unfold walk_result. cbn [snd].
  eapply Permutation_trans; [apply set_order_perm|].
  unfold Inv in Hinv. unfold round in Hstop.
  destruct st0 as [queue found visited].
  cbn [collection_urls_queue collection_ids manifest_ids] in *.
  destruct queue as [|url queue].
  - injection Hstop as <- _ <-. cbn [collection_ids]. now rewrite Hinv.
  - unfold py_in_set in Hstop.
    destruct (hashable url); [|discriminate Hstop].
    destruct (set_mem url visited); [discriminate Hstop|].
    destruct (fetch_json url w0) as [[data|e1] w1'].
    + destruct (collect_manifests url data found) as [found' [items|e2]];
        [|discriminate Hstop].
      destruct (limit_reached max_manifests (List.length found')).
      * injection Hstop as <- _ <-. cbn [collection_ids].
        rewrite filter_app. simpl. now rewrite app_nil_r, Hinv.
      * destruct (item_ids_of_kind "collection" items url); discriminate Hstop.
    + destruct (is_fetch_error e1); discriminate Hstop.
Qed.

End WalkRounds.

(** ** The cases of a round *)

Section RoundCases.

Context {RT : PyRuntime} {World : Type} {F : Fetcher World}.

(** A round that hands over to the loop took a URL [url] from the queue and
    either skipped it as visited, or fetched it without recording it, or
    fetched it and recorded it, queueing the nested collections. *)
Lemma round_next_cases (max_manifests : option Z) (st st' : walk_state)
    (w w' : World) (calls calls' : list fetch_call) :
  round max_manifests st w calls = Next st' w' calls' ->
  exists url queue,
    collection_urls_queue st = url :: queue /\ hashable url = true
    /\ ((set_mem url (collection_ids st) = true
         /\ st' = mkWalk queue (manifest_ids st) (collection_ids st)
         /\ calls' = calls)
        \/ (set_mem url (collection_ids st) = false
            /\ collection_urls_queue st' = queue
            /\ collection_ids st' = collection_ids st
            /\ manifest_step (manifest_ids st) (manifest_ids st')
            /\ calls' = calls ++ [mkCall url false])
        \/ (set_mem url (collection_ids st) = false
            /\ (exists data, fetch_json url w = (Ok data, w'))
            /\ (exists nested, collection_urls_queue st' = queue ++ nested
                               /\ Forall (fun v => truthy v = true) nested)
            /\ collection_ids st' = collection_ids st ++ [url]
            /\ manifest_step (manifest_ids st) (manifest_ids st')
            /\ calls' = calls ++ [mkCall url true])).
Proof.
  destruct st as [queue found visited]. unfold round.
  cbn [collection_urls_queue collection_ids manifest_ids].
  destruct queue as [|url queue]; [discriminate|].
  unfold py_in_set. destruct (hashable url) eqn:Hhash; [|discriminate].
  intros Hround. exists url, queue. split; [reflexivity|]. split; [exact Hhash|].
  destruct (set_mem url visited) eqn:Hnew.
  { injection Hround as <- _ <-. left. auto. }
  right.
  destruct (fetch_json url w) as [[data|e] w1] eqn:Hfetch.
  - destruct (collect_manifests url data found) as [found' [items|e]] eqn:Hfound.
    + destruct (limit_reached max_manifests (List.length found')); [discriminate|].
      destruct (item_ids_of_kind "collection" items url) as [nested|e] eqn:Hnested;
        injection Hround as <- <- <-; cbn [collection_urls_queue collection_ids manifest_ids].
      * right. split; [reflexivity|]. split; [now exists data|].
        split; [exists nested; split; [reflexivity|]|].
        { unfold item_ids_of_kind in Hnested.
          destruct (py_iter items) as [elems|]; cbn [bind] in Hnested; [|discriminate].
          destruct (filterM (has_kind "collection") elems) as [sel|];
            cbn [bind] in Hnested; [|discriminate].
          destruct (mapM (fun i => _normalize_item_id i url) sel) as [ids|];
            cbn [bind] in Hnested; [|discriminate].
          injection Hnested as <-. apply Forall_forall. intros v Hv.
          now apply filter_In in Hv. }
        split; [unfold set_add; now rewrite Hnew|].
        split; [right; now exists url, data, (Ok items) | reflexivity].
      * left. repeat split; try reflexivity. right. now exists url, data, (Ok items).
    + injection Hround as <- <- <-. left.
      repeat split; try reflexivity. right. now exists url, data, (Raise e).
  - destruct (is_fetch_error e); [|discriminate].
    injection Hround as <- <- <-. left. repeat split; try reflexivity. now left.
Qed.

(** A round that ends the loop with a state has left the visited set as it
    was, and has changed the manifest set by at most one step. *)
Lemma round_stop_cases (max_manifests : option Z) (st st' : walk_state)
    (w w' : World) (calls calls' : list fetch_call) :
  round max_manifests st w calls = Stop (Ok st') w' calls' ->
  collection_ids st' = collection_ids st
  /\ manifest_step (manifest_ids st) (manifest_ids st').
Proof.
  destruct st as [queue found visited]. unfold round.
  cbn [collection_urls_queue collection_ids manifest_ids].
  destruct queue as [|url queue].
  { intros Hstop. injection Hstop as <- _ _. split; [reflexivity | now left]. }
  destruct (py_in_set url visited) as [[|]|]; try discriminate.
  destruct (fetch_json url w) as [[data|e] w1].
  - destruct (collect_manifests url data found) as [found' [items|e]] eqn:Hfound;
      [|discriminate].
    destruct (limit_reached max_manifests (List.length found')).
    + intros Hstop. injection Hstop as <- _ _. split; [reflexivity|].
      right. now exists url, data, (Ok items).
    + destruct (item_ids_of_kind "collection" items url); discriminate.
  - destruct (is_fetch_error e); discriminate.
Qed.

End RoundCases.

(** ** The identifiers returned form sets *)

Lemma py_eqb_sym (a b : json) : py_eqb a b = py_eqb b a.
Proof.
  destruct a, b; simpl; try reflexivity;
    try apply String.eqb_sym; try apply Z.eqb_sym;
    repeat match goal with b : bool |- _ => destruct b end;
    try reflexivity; apply Z.eqb_sym.
Qed.

Lemma py_eqb_refl (a : json) : hashable a = true -> py_eqb a a = true.
Proof.
  destruct a; simpl; intros H; try discriminate H; try reflexivity.
  - destruct b; reflexivity.
  - apply Z.eqb_refl.
  - apply String.eqb_refl.
Qed.

Lemma set_mem_false (x : json) (s : list json) :
  set_mem x s = false -> forall y, In y s -> py_eqb x y = false.
Proof. intros Hmem y Hy. exact (not_member_differs x y s Hmem Hy). Qed.

Lemma is_set_nil : is_set [].
Proof. split; [constructor | intros x y []]. Qed.

Lemma is_set_snoc (x : json) (s : list json) :
  hashable x = true -> set_mem x s = false -> is_set s -> is_set (s ++ [x]).
Proof.
  intros Hhash Hnew [Hnodup Hdiff].
  assert (Hnotin : ~ In x s).
  { intros Hin. pose proof (set_mem_false x s Hnew x Hin) as Hne.
    rewrite (py_eqb_refl x Hhash) in Hne. discriminate Hne. }
  split.
  - apply NoDup_app; [exact Hnodup | repeat constructor; intros [] |].
    intros a Ha [<-|[]]. exact (Hnotin Ha).
  - intros a b Ha Hb Hab.
    apply in_app_or in Ha as [Ha|[<-|[]]]; apply in_app_or in Hb as [Hb|[<-|[]]].
    + exact (Hdiff a b Ha Hb Hab).
    + rewrite py_eqb_sym. exact (set_mem_false x s Hnew a Ha).
    + exact (set_mem_false x s Hnew b Hb).
    + now contradict Hab.
Qed.

Lemma is_set_add (x : json) (s : list json) :
  hashable x = true -> is_set s -> is_set (set_add x s).
Proof.
  intros Hhash Hset. unfold set_add.
  destruct (set_mem x s) eqn:Hmem; [exact Hset | now apply is_set_snoc].
Qed.

Lemma is_set_prefix (l1 l2 : list json) : is_set (l1 ++ l2) -> is_set l1.
Proof.
  intros [Hnodup Hdiff]. split.
  - exact (NoDup_app_remove_r _ _ Hnodup).
  - intros x y Hx Hy. apply Hdiff; apply in_or_app; now left.
Qed.

Lemma is_set_permutation (l l' : list json) :
  Permutation l l' -> is_set l -> is_set l'.
Proof.
  intros Hperm [Hnodup Hdiff]. split.
  - exact (Permutation_NoDup Hperm Hnodup).
  - intros x y Hx Hy.
    apply Hdiff; apply (Permutation_in _ (Permutation_sym Hperm)); assumption.
Qed.

Lemma py_take_is_a_prefix (max_manifests : option Z) (l : list json) :
  exists rest, l = py_take max_manifests l ++ rest.
Proof.
  unfold py_take. destruct max_manifests as [k|]; [|exists []; now rewrite app_nil_r].
  destruct (0 <=? k)%Z; eexists; symmetry; apply firstn_skipn.
Qed.

Lemma set_add_elements (x v : json) (s : list json) :
  In v (set_add x s) -> In v s \/ v = x.
Proof.
  unfold set_add. destruct (set_mem x s); [auto|].
  intros Hin. apply in_app_or in Hin as [Hin|[<-|[]]]; auto.
Qed.

Lemma set_update_keeps_sets (xs : list json) :
  forall s, is_set s -> is_set (fst (set_update xs s)).
Proof.
  induction xs as [|x xs IH]; intros s Hset; [exact Hset|].
  cbn [set_update]. destruct (hashable x) eqn:Hhash; [|exact Hset].
  apply IH. now apply is_set_add.
Qed.

Lemma set_update_elements (xs : list json) :
  forall s v, In v (fst (set_update xs s)) ->
    In v s \/ (In v xs /\ hashable v = true).
Proof.
  induction xs as [|x xs IH]; intros s v Hin; [now left|].
  cbn [set_update] in Hin. destruct (hashable x) eqn:Hhash; [|now left].
  apply IH in Hin as [Hin|[Hin Hv]].
  - apply set_add_elements in Hin as [Hin| ->]; [now left|].
    right. split; [now left | exact Hhash].
  - right. split; [now right | exact Hv].
Qed.

Section ReturnedSets.

Context {RT : PyRuntime} {World : Type} {F : Fetcher World}.

Lemma item_ids_are_truthy (kind : string) (items url : json) (ids : list json) :
  item_ids_of_kind kind items url = Ok ids ->
  forall v, In v ids -> truthy v = true.
Proof.
  unfold item_ids_of_kind.
  destruct (py_iter items) as [elems|]; cbn [bind]; [|discriminate].
  destruct (filterM (has_kind kind) elems) as [sel|]; cbn [bind]; [|discriminate].
  destruct (mapM (fun i => _normalize_item_id i url) sel) as [ids0|];
    cbn [bind]; [|discriminate].
  intros Heq v Hv. injection Heq as <-. now apply filter_In in Hv.
Qed.

Lemma collect_manifests_step (url data : json) (found found' : list json)
    (r : result json) :
  collect_manifests url data found = (found', r) ->
  (is_set found -> is_set found')
  /\ (forall v, In v found' -> In v found \/ (hashable v = true /\ truthy v = true)).
Proof.
  unfold collect_manifests.
  destruct (child_items data) as [items|e]; cbn [bind].
  2:{ intros Heq. injection Heq as <- _. auto. }
  destruct (item_ids_of_kind "manifest" items url) as [ids|e] eqn:Hids; cbn [bind].
  2:{ intros Heq. injection Heq as <- _. auto. }
  pose proof (set_update_keeps_sets ids found) as Hsets.
  pose proof (set_update_elements ids found) as Helems.
  assert (Hnew : forall v, In v (fst (set_update ids found)) ->
                      In v found \/ (hashable v = true /\ truthy v = true)).
  { intros v Hv. apply Helems in Hv as [Hv|[Hv Hhash]]; [now left|].
    right. split; [exact Hhash | exact (item_ids_are_truthy _ _ _ _ Hids v Hv)]. }
  destruct (set_update ids found) as [found1 [e|]]; cbn [fst] in *;
    intros Heq; injection Heq as <- _; split; assumption.
Qed.

Lemma manifest_step_keeps (found found' : list json) :
  manifest_step found found' ->
  is_set found ->
  Forall (fun v => hashable v = true /\ truthy v = true) found ->
  is_set found' /\ Forall (fun v => hashable v = true /\ truthy v = true) found'.
Proof.
  intros [->|(url & data & r & Hstep)] Hset Hgood; [auto|].
  apply collect_manifests_step in Hstep as [Hsets Helems].
  split; [auto|]. apply Forall_forall. intros v Hv.
  apply Helems in Hv as [Hv|Hv]; [|exact Hv].
  exact (proj1 (Forall_forall _ _) Hgood v Hv).
Qed.

(** X8.  The two lists returned by a walk represent sets: no identifier occurs
    twice and no two are equal for Python.  Every manifest identifier is
    hashable and truthy (never [None] and never an empty string), and every
    collection identifier is hashable. *)
Theorem returned_ids_form_sets :
  forall (fuel : nat) (collection_url : string) (max_manifests : option Z)
         (w w' : World) (manifests collections : list json) (calls : list fetch_call),
    get_manifests_and_collections_ids fuel collection_url max_manifests w
      = Some (Ok (manifests, collections), w', calls) ->
    is_set manifests /\ is_set collections
    /\ Forall (fun v => hashable v = true /\ truthy v = true) manifests
    /\ Forall (fun v => hashable v = true) collections.
Proof.
  intros fuel collection_url max_manifests w w' manifests collections calls Hrun.
  unfold get_manifests_and_collections_ids in Hrun.
  destruct (walk fuel max_manifests _ w []) as [[[r w1] calls1]|] eqn:Hwalk;
    [|discriminate Hrun].
  destruct r as [st|e1]; [|discriminate Hrun]. injection Hrun as <- <- -> ->.
  set (Inv := fun (st : walk_state) (_ : list fetch_call) =>
                (is_set (manifest_ids st)
                 /\ Forall (fun v => hashable v = true /\ truthy v = true) (manifest_ids st))
                /\ is_set (collection_ids st)
                /\ Forall (fun v => hashable v = true) (collection_ids st)).
  assert (Hkeep : forall st w calls st' w' calls',
             Inv st calls -> round max_manifests st w calls = Next st' w' calls' ->
             Inv st' calls').
  { unfold Inv. intros st0 w0 calls0 st' w0' calls0' [[Hm Hgood] [Hc Hhash]] Hround.
    apply round_next_cases in Hround
      as (url & queue & _ & Hurl & [(_ & -> & _)|[(_ & _ & Hv & Hstep & _)|(Hnew & _ & _ & Hv & Hstep & _)]]).
    - cbn [manifest_ids collection_ids]. auto.
    - rewrite Hv. split; [exact (manifest_step_keeps _ _ Hstep Hm Hgood)|auto].
    - rewrite Hv. split; [exact (manifest_step_keeps _ _ Hstep Hm Hgood)|]. split.
      + now apply is_set_snoc.
      + apply Forall_app. split; [exact Hhash | now repeat constructor]. }
  assert (Hinit : Inv (mkWalk [JStr collection_url] [] []) []).
  { unfold Inv. cbn [manifest_ids collection_ids].
    repeat split; try constructor; intros x y []. }
  destruct (walk_stops_in_invariant max_manifests Inv Hkeep _ _ _ _ _ _ _ Hwalk Hinit)
    as (st0 & w0 & calls0 & [[Hm Hgood] [Hc Hhash]] & Hstop).
  apply round_stop_cases in Hstop as [Hv Hstep].
  destruct (manifest_step_keeps _ _ Hstep Hm Hgood) as [Hm' Hgood'].
  unfold walk_result. rewrite Hv.
  pose proof (set_order_perm (manifest_ids st)) as Hpm.
  pose proof (set_order_perm (collection_ids st0)) as Hpc.
  destruct (py_take_is_a_prefix max_manifests (set_order (manifest_ids st))) as [rest Hrest].
  assert (Hall : is_set (set_order (manifest_ids st))
                 /\ Forall (fun v => hashable v = true /\ truthy v = true)
                      (set_order (manifest_ids st))).
  { split; [exact (is_set_permutation _ _ (Permutation_sym Hpm) Hm')|].
    exact (Permutation_Forall (Permutation_sym Hpm) Hgood'). }
  destruct Hall as [Hset Hall]. rewrite Hrest in Hset, Hall.
  split; [exact (is_set_prefix _ _ Hset)|].
  split; [exact (is_set_permutation _ _ (Permutation_sym Hpc) Hc)|].
  split; [exact (proj1 (proj1 (Forall_app _ _ _) Hall))|].
  exact (Permutation_Forall (Permutation_sym Hpc) Hhash).
Qed.

End ReturnedSets.

(** ** Fuel, and the end of the walk *)

Lemma filter_shrinks {A : Type} (f g : A -> bool) (l : list A) (a : A) :
  (forall x, g x = true -> f x = true) ->
  In a l -> f a = true -> g a = false ->
  (List.length (filter g l) < List.length (filter f l))%nat.
Proof.
  intros Hsub. 
  assert (Hle : forall l', (List.length (filter g l') <= List.length (filter f l'))%nat).
  { induction l' as [|x l' IH]; [reflexivity|]. simpl.
    destruct (g x) eqn:Hg; [rewrite (Hsub x Hg); simpl; lia|].
    destruct (f x); simpl; lia. }
  induction l as [|x l IH]; intros Hin Hf Hg; [destruct Hin|].
  simpl. destruct Hin as [->|Hin].
  - rewrite Hf, Hg. specialize (Hle l). simpl. lia.
  - specialize (IH Hin Hf Hg).
    destruct (g x) eqn:Hgx; [rewrite (Hsub x Hgx); simpl; lia|].
    destruct (f x); simpl; lia.
Qed.

Lemma unvisited_decreases (candidates visited : list json) (url : json) :
  In url candidates -> hashable url = true -> set_mem url visited = false ->
  (unvisited candidates (visited ++ [url]) < unvisited candidates visited)%nat.
Proof.
  intros Hin Hhash Hnew. unfold unvisited.
  apply (filter_shrinks _ _ candidates url); [|exact Hin|now rewrite Hnew|].
  - intros x. unfold set_mem. rewrite existsb_app.
    destruct (existsb (py_eqb x) visited); [discriminate | reflexivity].
  - unfold set_mem. rewrite existsb_app. simpl.
    rewrite (py_eqb_refl url Hhash). now rewrite orb_true_r.
Qed.

Section Termination.

Context {RT : PyRuntime} {World : Type} {F : Fetcher World}.

(** More fuel does not change a result. *)
Lemma walk_more_fuel (max_manifests : option Z) (fuel : nat) :
  forall st w calls r,
    walk fuel max_manifests st w calls = Some r ->
    forall extra, walk (fuel + extra) max_manifests st w calls = Some r.
Proof.
  induction fuel as [|fuel IH]; intros st w calls r Hrun extra; [discriminate Hrun|].
  change (S fuel + extra)%nat with (S (fuel + extra)).
  rewrite walk_round in *.
  destruct (round max_manifests st w calls); [now apply IH | exact Hrun].
Qed.

Variable candidates : list json.

Hypothesis fetchable :
  forall url w data w', fetch_json url w = (Ok data, w') -> In url candidates.

Lemma walk_ends_within (max_manifests : option Z) (k : nat) :
  (forall st, (unvisited candidates (collection_ids st) < k)%nat ->
     forall w calls, exists fuel r, walk fuel max_manifests st w calls = Some r) ->
  forall queue found visited,
    (unvisited candidates visited <= k)%nat ->
    forall w calls,
      exists fuel r, walk fuel max_manifests (mkWalk queue found visited) w calls = Some r.
Proof.
  intros Hless. induction queue as [|url queue IH]; intros found visited Hk w calls.
  - exists 1%nat. eexists. reflexivity.
  - destruct (round max_manifests (mkWalk (url :: queue) found visited) w calls)
      as [st' w' calls'|r w' calls'] eqn:Hround.
    + assert (Hnext : exists fuel r, walk fuel max_manifests st' w' calls' = Some r).
      { apply round_next_cases in Hround
          as (url0 & queue0 & Hq & Hhash & [(_ & -> & _)|[(_ & Hq' & Hv & _)|(Hnew & [data Hfetch] & _ & Hv & _)]]);
          cbn [collection_urls_queue collection_ids manifest_ids] in *;
          injection Hq as <- <-.
        - now apply IH.
        - destruct st' as [q1 f1 v1]. cbn [collection_urls_queue collection_ids] in *.
          subst q1 v1. now apply IH.
        - apply Hless. rewrite Hv.
          apply fetchable in Hfetch.
          pose proof (unvisited_decreases candidates visited url Hfetch Hhash Hnew). lia. }
      destruct Hnext as (fuel & r & Hrun).
      exists (S fuel), r. now rewrite walk_round, Hround.
    + exists 1%nat, (r, w', calls'). now rewrite walk_round, Hround.
Qed.

Lemma walk_ends (max_manifests : option Z) (k : nat) :
  forall st, (unvisited candidates (collection_ids st) <= k)%nat ->
    forall w calls, exists fuel r, walk fuel max_manifests st w calls = Some r.
Proof.
  induction k as [|k IH]; intros [queue found visited] Hk w calls;
    cbn [collection_ids] in Hk.
  - apply (walk_ends_within max_manifests 0); [|exact Hk].
    intros st Hlt. lia.
  - apply (walk_ends_within max_manifests (S k)); [|exact Hk].
    intros st Hlt. apply IH. lia.
Qed.

(** X9.  When every URL that [fetch_json] can fetch with success belongs to a
    finite list, the walk ends, whatever the documents hold (collections
    that list each other, the same collection listed many times): some
    amount of fuel gives an outcome, and every larger amount gives the same
    outcome. *)
Theorem walk_terminates_on_a_finite_site :
  forall (collection_url : string) (max_manifests : option Z) (w : World),
  exists fuel outcome,
    forall extra,
      get_manifests_and_collections_ids (fuel + extra) collection_url max_manifests w
        = Some outcome.
Proof.
  intros collection_url max_manifests w.
  destruct (walk_ends max_manifests _ (mkWalk [JStr collection_url] [] []) (le_n _) w [])
    as (fuel & [[r w'] calls] & Hrun).
  exists fuel.
  exists (match r with
          | Ok st => (Ok (walk_result max_manifests st), w', calls)
          | Raise e => (Raise e, w', calls)
          end).
  intros extra. unfold get_manifests_and_collections_ids.
  rewrite (walk_more_fuel _ _ _ _ _ _ Hrun extra). destruct r; reflexivity.
Qed.

End Termination.

Lemma diamond_site_is_finite :
  forall url w data w',
    @fetch_json unit diamond_site url w = (Ok data, w') ->
    In url [JStr root_url; JStr child_a; JStr child_b; JStr child_c].
Proof.
  intros url w data w'. destruct url as [| | |u| |]; try discriminate.
  cbn [fetch_json diamond_site site].
  destruct (String.eqb_spec u root_url) as [->|_]; [intros _; simpl; auto|].
  destruct (String.eqb_spec u child_a) as [->|_]; [intros _; simpl; auto|].
  destruct (String.eqb_spec u child_b) as [->|_]; [intros _; simpl; auto|].
  destruct (String.eqb_spec u child_c) as [->|_]; [intros _; simpl; auto|].
  discriminate.
Defined.

Lemma walk_terminates_witness :
  exists fuel outcome,
    forall extra, walk_on diamond_site (fuel + extra) None = Some outcome.
Proof.
  exact (@walk_terminates_on_a_finite_site plain_runtime unit diamond_site
           [JStr root_url; JStr child_a; JStr child_b; JStr child_c]
           diamond_site_is_finite root_url None tt).
Defined.

(** ** A bound that is not reached *)

Lemma set_add_grows (x : json) (s : list json) :
  (List.length s <= List.length (set_add x s))%nat.
Proof.
  unfold set_add. destruct (set_mem x s); [lia | rewrite length_app; lia].
Qed.

Lemma set_update_grows (xs : list json) :
  forall s, (List.length s <= List.length (fst (set_update xs s)))%nat.
Proof.
  induction xs as [|x xs IH]; intros s; [reflexivity|].
  cbn [set_update]. destruct (hashable x); [|reflexivity].
  pose proof (set_add_grows x s). specialize (IH (set_add x s)). lia.
Qed.

Section UnreachedBound.

Context {RT : PyRuntime} {World : Type} {F : Fetcher World}.

Lemma manifest_step_grows (found found' : list json) :
  manifest_step found found' -> (List.length found <= List.length found')%nat.
Proof.
  intros [->|(url & data & r & Hstep)]; [reflexivity|].
  unfold collect_manifests in Hstep.
  destruct (items <- child_items data ;;
            ids <- item_ids_of_kind "manifest" items url ;; Ok (items, ids))
    as [[items ids]|e]; [|now injection Hstep as <- _].
  pose proof (set_update_grows ids found) as Hgrow.
  destruct (set_update ids found) as [found1 [e|]]; now injection Hstep as <- _.
Qed.

Lemma walk_manifests_grow (max_manifests : option Z) (fuel : nat)
    (st st' : walk_state) (w w' : World) (calls calls' : list fetch_call) :
  walk fuel max_manifests st w calls = Some (Ok st', w', calls') ->
  (List.length (manifest_ids st) <= List.length (manifest_ids st'))%nat.
Proof.
  intros Hrun.
  set (Inv := fun (s : walk_state) (_ : list fetch_call) =>
                (List.length (manifest_ids st) <= List.length (manifest_ids s))%nat).
  assert (Hkeep : forall s w0 c s' w0' c',
             Inv s c -> round max_manifests s w0 c = Next s' w0' c' -> Inv s' c').
  { unfold Inv. intros s w0 c s' w0' c' Hinv Hround.
    apply round_next_cases in Hround
      as (url & queue & _ & _ & [(_ & -> & _)|[(_ & _ & _ & Hstep & _)|(_ & _ & _ & _ & Hstep & _)]]);
      [exact Hinv| |]; apply manifest_step_grows in Hstep; lia. }
  destruct (walk_stops_in_invariant max_manifests Inv Hkeep _ _ _ _ _ _ _ Hrun (le_n _))
    as (st0 & w0 & calls0 & Hinv & Hstop).
  apply round_stop_cases in Hstop as [_ Hstep].
  apply manifest_step_grows in Hstep. unfold Inv in Hinv. lia.
Qed.

Lemma round_below_bound (N : Z) (st : walk_state) (w : World) (calls : list fetch_call) :
  (forall st' w' calls',
      round None st w calls = Next st' w' calls' ->
      (Z.of_nat (List.length (manifest_ids st')) < N)%Z ->
      round (Some N) st w calls = Next st' w' calls')
  /\ (forall st' w' calls',
      round None st w calls = Stop (Ok st') w' calls' ->
      round (Some N) st w calls = Stop (Ok st') w' calls').
Proof.
  destruct st as [queue found visited]. unfold round.
  cbn [collection_urls_queue collection_ids manifest_ids limit_reached].
  destruct queue as [|url queue]; [split; [discriminate | auto]|].
  destruct (py_in_set url visited) as [[|]|e]; [split; auto | | split; auto].
  destruct (fetch_json url w) as [[data|e] w1]; [|split; auto].
  destruct (collect_manifests url data found) as [found' [items|e]]; [|split; auto].
  assert (Hbelow : (Z.of_nat (List.length found') < N)%Z ->
                   negb (N =? 0)%Z && (N <=? Z.of_nat (List.length found'))%Z = false).
  { intros Hlt. apply andb_false_iff. right. apply Z.leb_gt. exact Hlt. }
  split.
  - intros st' w' calls' Hnext Hlt.
    destruct (item_ids_of_kind "collection" items url) as [nested|e];
      injection Hnext as <- <- <-; cbn [manifest_ids] in Hlt;
      now rewrite (Hbelow Hlt).
  - intros st' w' calls'.
    destruct (item_ids_of_kind "collection" items url); discriminate.
Qed.

Lemma walk_below_bound (N : Z) (fuel : nat) :
  forall st w calls st' w' calls',
    walk fuel None st w calls = Some (Ok st', w', calls') ->
    (Z.of_nat (List.length (manifest_ids st')) < N)%Z ->
    walk fuel (Some N) st w calls = Some (Ok st', w', calls').
Proof.
  induction fuel as [|fuel IH]; intros st w calls st' w' calls' Hrun Hlt;
    [discriminate Hrun|].
  rewrite walk_round in *.
  destruct (round_below_bound N st w calls) as [Hnext Hstop].
  destruct (round None st w calls) as [st1 w1 calls1|r w1 calls1].
  - pose proof (walk_manifests_grow _ _ _ _ _ _ _ _ Hrun) as Hgrow.
    rewrite (Hnext st1 w1 calls1 eq_refl) by lia. now apply IH.
  - injection Hrun as -> -> ->. now rewrite (Hstop st' w' calls' eq_refl).
Qed.

(** X10.  When the walk without a bound returns fewer than [N] manifests, the walk
    with the bound [N] makes the same calls and returns the same lists: a
    bound that is not reached changes nothing. *)
Theorem unreached_bound_changes_nothing :
  forall (N : Z) (fuel : nat) (collection_url : string) (w w' : World)
         (manifests collections : list json) (calls : list fetch_call),
    get_manifests_and_collections_ids fuel collection_url None w
      = Some (Ok (manifests, collections), w', calls) ->
    (Z.of_nat (List.length manifests) < N)%Z ->
    get_manifests_and_collections_ids fuel collection_url (Some N) w
      = Some (Ok (manifests, collections), w', calls).
Proof.
  intros N fuel collection_url w w' manifests collections calls Hrun Hlt.
  unfold get_manifests_and_collections_ids in *.
  destruct (walk fuel None _ w []) as [[[r w1] calls1]|] eqn:Hwalk; [|discriminate Hrun].
  destruct r as [st|e]; [|discriminate Hrun].
  unfold walk_result in Hrun. cbn [py_take] in Hrun. injection Hrun as <- <- <- <-.
  pose proof (Permutation_length (set_order_perm (manifest_ids st))) as Hlen.
  rewrite (walk_below_bound N _ _ _ _ _ _ _ Hwalk) by lia.
  unfold walk_result, py_take.
  destruct (Z.leb_spec 0 N) as [_|Hneg]; [|lia].
  rewrite firstn_all2 by lia. reflexivity.
Qed.

End UnreachedBound.

Lemma unreached_bound_witness :
  walk_on diamond_site 8 (Some 3%Z) =
  Some (Ok ([JStr manifest_1; JStr manifest_2],
            [JStr root_url; JStr child_a; JStr child_b; JStr child_c]),
        tt,
        [mkCall (JStr root_url) true; mkCall (JStr child_a) true;
         mkCall (JStr child_b) true; mkCall (JStr child_c) true]).
Proof.
  apply (@unreached_bound_changes_nothing plain_runtime unit diamond_site 3%Z 8
           root_url tt tt _ _ _ diamond_walk).
  simpl. lia.
Defined.

(** ** What the walk discovers *)

Lemma set_mem_incl (x : json) (s s' : list json) :
  set_mem x s = true -> incl s s' -> set_mem x s' = true.
Proof.
  unfold set_mem. intros Hmem Hincl.
  apply existsb_exists in Hmem as (y & Hy & Heq).
  apply existsb_exists. exists y. split; [now apply Hincl | exact Heq].
Qed.

Lemma set_add_incl (x : json) (s : list json) : incl s (set_add x s).
Proof. intros v Hv. now apply set_add_keeps. Qed.

Lemma set_mem_add_self (x : json) (s : list json) :
  hashable x = true -> set_mem x (set_add x s) = true.
Proof.
  intros Hhash. unfold set_add. destruct (set_mem x s) eqn:Hmem; [exact Hmem|].
  unfold set_mem. rewrite existsb_app. simpl.
  rewrite (py_eqb_refl x Hhash). now rewrite orb_true_r.
Qed.

Lemma set_update_incl (xs : list json) :
  forall s, incl s (fst (set_update xs s)).
Proof.
  induction xs as [|x xs IH]; intros s; [apply incl_refl|].
  cbn [set_update]. destruct (hashable x); [|apply incl_refl].
  exact (incl_tran (set_add_incl x s) (IH (set_add x s))).
Qed.

Lemma set_update_complete (xs : list json) :
  forall s s', set_update xs s = (s', None) ->
    forall x, In x xs -> set_mem x s' = true.
Proof.
  induction xs as [|x xs IH]; intros s s' Hupd y Hy; [destruct Hy|].
  cbn [set_update] in Hupd. destruct (hashable x) eqn:Hhash; [|discriminate Hupd].
  destruct Hy as [<-|Hy]; [|exact (IH _ _ Hupd y Hy)].
  apply (set_mem_incl x (set_add x s)); [now apply set_mem_add_self|].
  pose proof (set_update_incl xs (set_add x s)) as Hincl.
  now rewrite Hupd in Hincl.
Qed.

Section Discovery.

Context {RT : PyRuntime} {World : Type} {F : Fetcher World}.

Lemma collect_manifests_sources (url data : json) (found found' : list json)
    (r : result json) :
  collect_manifests url data found = (found', r) ->
  incl found found'
  /\ forall v, In v found' ->
       In v found
       \/ exists items ids,
            child_items data = Ok items
            /\ item_ids_of_kind "manifest" items url = Ok ids /\ In v ids.
Proof.
  unfold collect_manifests.
  destruct (child_items data) as [items|e] eqn:Hitems; cbn [bind].
  2:{ intros Heq. injection Heq as <- _. split; [apply incl_refl | auto]. }
  destruct (item_ids_of_kind "manifest" items url) as [ids|e] eqn:Hids; cbn [bind].
  2:{ intros Heq. injection Heq as <- _. split; [apply incl_refl | auto]. }
  pose proof (set_update_incl ids found) as Hincl.
  assert (Hsrc : forall v, In v (fst (set_update ids found)) ->
                   In v found
                   \/ exists items0 ids0,
                        Ok items = Ok items0
                        /\ item_ids_of_kind "manifest" items0 url = Ok ids0 /\ In v ids0).
  { intros v Hv. apply set_update_elements in Hv as [Hv|[Hv _]]; [now left|].
    right. exists items, ids. auto. }
  destruct (set_update ids found) as [found1 [e|]]; cbn [fst] in *;
    intros Heq; injection Heq as <- _; split; assumption.
Qed.

Lemma collect_manifests_complete (url data items : json) (found found' : list json) :
  collect_manifests url data found = (found', Ok items) ->
  child_items data = Ok items
  /\ exists ids,
       item_ids_of_kind "manifest" items url = Ok ids
       /\ forall id, In id ids -> set_mem id found' = true.
Proof.
  unfold collect_manifests.
  destruct (child_items data) as [items0|e]; cbn [bind]; [|discriminate].
  destruct (item_ids_of_kind "manifest" items0 url) as [ids|e] eqn:Hids; cbn [bind];
    [|discriminate].
  destruct (set_update ids found) as [found1 [e|]] eqn:Hupd; [discriminate|].
  intros Heq. injection Heq as <- <-.
  split; [reflexivity|]. exists ids. split; [exact Hids|].
  exact (set_update_complete ids found found1 Hupd).
Qed.

(** What a round that goes on, or that ends the loop with a state, does to
    the manifest set and to the calls. *)
Lemma round_manifests_from_fetch (max_manifests : option Z) (st st' : walk_state)
    (w w' : World) (calls calls' : list fetch_call) :
  round max_manifests st w calls = Next st' w' calls'
  \/ round max_manifests st w calls = Stop (Ok st') w' calls' ->
  (exists more, calls' = calls ++ more)
  /\ (manifest_ids st' = manifest_ids st
      \/ exists url data r,
           fetch_json url w = (Ok data, w')
           /\ collect_manifests url data (manifest_ids st) = (manifest_ids st', r)
           /\ In url (map call_url calls')).
Proof.
  destruct st as [queue found visited]. unfold round.
  cbn [collection_urls_queue collection_ids manifest_ids].
  assert (Hlast : forall url b, In url (map call_url (calls ++ [mkCall url b]))).
  { intros url b. rewrite map_app. apply in_or_app. right. now left. }
  destruct queue as [|url queue].
  { intros [H|H]; [discriminate H|]. injection H as <- _ <-.
    split; [exists []; now rewrite app_nil_r | now left]. }
  destruct (py_in_set url visited) as [[|]|e].
  { intros [H|H]; [|discriminate H]. injection H as <- _ <-.
    split; [exists []; now rewrite app_nil_r | now left]. }
  2:{ intros [H|H]; discriminate H. }
  destruct (fetch_json url w) as [[data|e] w1] eqn:Hfetch.
  - destruct (collect_manifests url data found) as [found' [items|e]] eqn:Hfound.
    + assert (Hdone : forall b,
                 (exists more, calls ++ [mkCall url b] = calls ++ more)
                 /\ (found' = found
                     \/ exists url0 data0 r0,
                          fetch_json url0 w = (Ok data0, w1)
                          /\ collect_manifests url0 data0 found = (found', r0)
                          /\ In url0 (map call_url (calls ++ [mkCall url b])))).
      { intros b. split; [eauto|]. right. exists url, data, (Ok items). auto. }
      destruct (limit_reached max_manifests (List.length found')).
      * intros [H|H]; [discriminate H|]. injection H as <- <- <-. apply (Hdone false).
      * destruct (item_ids_of_kind "collection" items url);
          (intros [H|H]; [|discriminate H]); injection H as <- <- <-;
          cbn [manifest_ids]; [apply (Hdone true) | apply (Hdone false)].
    + intros [H|H]; [|discriminate H]. injection H as <- <- <-.
      split; [eauto|]. right. exists url, data, (Raise e). auto.
  - destruct (is_fetch_error e); (intros [H|H]; try discriminate H).
    injection H as <- _ <-. split; [eauto | now left].
Qed.

(** A round that goes on leaves the visited set as it was, or records the
    URL whose document it has fetched and processed. *)
Lemma round_visit_details (max_manifests : option Z) (st st' : walk_state)
    (w w' : World) (calls calls' : list fetch_call) :
  round max_manifests st w calls = Next st' w' calls' ->
  collection_ids st' = collection_ids st
  \/ exists url data items,
       collection_ids st' = collection_ids st ++ [url]
       /\ fetch_json url w = (Ok data, w')
       /\ collect_manifests url data (manifest_ids st) = (manifest_ids st', Ok items).
Proof.
  destruct st as [queue found visited]. unfold round.
  cbn [collection_urls_queue collection_ids manifest_ids].
  destruct queue as [|url queue]; [discriminate|].
  unfold py_in_set. destruct (hashable url); [|discriminate].
  destruct (set_mem url visited) eqn:Hnew; [intros H; injection H as <- _ _; now left|].
  destruct (fetch_json url w) as [[data|e] w1] eqn:Hfetch.
  - destruct (collect_manifests url data found) as [found' [items|e]] eqn:Hfound.
    + destruct (limit_reached max_manifests (List.length found')); [discriminate|].
      destruct (item_ids_of_kind "collection" items url); intros H;
        injection H as <- <- _; [|now left].
      right. exists url, data, items. cbn [collection_ids manifest_ids].
      unfold set_add. rewrite Hnew. repeat split; assumption.
    + intros H. injection H as <- _ _. now left.
  - destruct (is_fetch_error e); [|discriminate]. intros H. injection H as <- _ _. now left.
Qed.

Variable doc : json -> result json.

Hypothesis fetch_is_doc : forall url w, fst (fetch_json url w) = doc url.

(** X11.  When the document at a URL does not depend on the world, every manifest
    identifier returned by a walk is listed as a manifest by the document at
    a URL that the walk has fetched. *)
Theorem returned_manifests_are_listed :
  forall (fuel : nat) (collection_url : string) (max_manifests : option Z)
         (w w' : World) (manifests collections : list json) (calls : list fetch_call),
    get_manifests_and_collections_ids fuel collection_url max_manifests w
      = Some (Ok (manifests, collections), w', calls) ->
    forall id, In id manifests ->
      exists url, In url (map call_url calls) /\ lists_manifest doc url id.
Proof.
  intros fuel collection_url max_manifests w w' manifests collections calls Hrun.
  unfold get_manifests_and_collections_ids in Hrun.
  destruct (walk fuel max_manifests _ w []) as [[[r w1] calls1]|] eqn:Hwalk;
    [|discriminate Hrun].
  destruct r as [st|e1]; [|discriminate Hrun]. injection Hrun as <- <- -> ->.
  set (Inv := fun (s : walk_state) (cs : list fetch_call) =>
                forall id, In id (manifest_ids s) ->
                  exists url, In url (map call_url cs) /\ lists_manifest doc url id).
  assert (Hstep : forall s w0 c s' w0' c',
             Inv s c ->
             round max_manifests s w0 c = Next s' w0' c'
             \/ round max_manifests s w0 c = Stop (Ok s') w0' c' ->
             Inv s' c').
  { unfold Inv. intros s w0 c s' w0' c' Hinv Hround id Hid.
    apply round_manifests_from_fetch in Hround as [[more ->] Hm].
    assert (Hold : In id (manifest_ids s) ->
                   exists url, In url (map call_url (c ++ more))
                               /\ lists_manifest doc url id).
    { intros Hin. destruct (Hinv id Hin) as (url & Hurl & Hlist).
      exists url. split; [|exact Hlist]. rewrite map_app. apply in_or_app. now left. }
    destruct Hm as [Hsame|(url & data & r & Hfetch & Hcollect & Hcalled)].
    - rewrite Hsame in Hid. auto.
    - apply collect_manifests_sources in Hcollect as [_ Hsrc].
      destruct (Hsrc id Hid) as [Hin|(items & ids & Hitems & Hids & Hin)]; [auto|].
      exists url. split; [exact Hcalled|].
      exists data, items, ids. repeat split; try assumption.
      rewrite <- (fetch_is_doc url w0), Hfetch. reflexivity. }
  assert (Hkeep : forall s w0 c s' w0' c',
             Inv s c -> round max_manifests s w0 c = Next s' w0' c' -> Inv s' c').
  { intros s w0 c s' w0' c' Hinv Hround. exact (Hstep s w0 c s' w0' c' Hinv (or_introl Hround)). }
  destruct (walk_stops_in_invariant max_manifests Inv Hkeep _ _ _ _ _ _ _ Hwalk)
    as (st0 & w0 & calls0 & Hinv & Hstop); [intros id []|].
  pose proof (Hstep _ _ _ _ _ _ Hinv (or_intror Hstop)) as Hfinal.
  intros id Hid. apply Hfinal.
  unfold walk_result in Hid. cbn [fst] in Hid.
  destruct (py_take_is_a_prefix max_manifests (set_order (manifest_ids st))) as [rest Hrest].
  apply (Permutation_in _ (set_order_perm (manifest_ids st))).
  rewrite Hrest. apply in_or_app. now left.
Qed.

(** X12.  When the document at a URL does not depend on the world, a walk without
    a bound returns every manifest that the document of a returned
    collection lists: for each identifier listed, the list of manifests
    holds an identifier equal to it. *)
Theorem listed_manifests_are_returned :
  forall (fuel : nat) (collection_url : string)
         (w w' : World) (manifests collections : list json) (calls : list fetch_call),
    get_manifests_and_collections_ids fuel collection_url None w
      = Some (Ok (manifests, collections), w', calls) ->
    forall c id, In c collections -> lists_manifest doc c id ->
      set_mem id manifests = true.
Proof.
  intros fuel collection_url w w' manifests collections calls Hrun.
  unfold get_manifests_and_collections_ids in Hrun.
  destruct (walk fuel None _ w []) as [[[r w1] calls1]|] eqn:Hwalk;
    [|discriminate Hrun].
  destruct r as [st|e1]; [|discriminate Hrun]. injection Hrun as <- <- -> ->.
  set (Inv := fun (s : walk_state) (_ : list fetch_call) =>
                forall c id, In c (collection_ids s) -> lists_manifest doc c id ->
                  set_mem id (manifest_ids s) = true).
  assert (Hkeep : forall s w0 c s' w0' c',
             Inv s c -> round None s w0 c = Next s' w0' c' -> Inv s' c').
  { unfold Inv. intros s w0 cs s' w0' cs' Hinv Hround c id Hc Hlist.
    assert (Hincl : incl (manifest_ids s) (manifest_ids s')).
    { destruct (round_manifests_from_fetch None _ _ _ _ _ _ (or_introl Hround))
        as [_ [->|(url & data & r & _ & Hcollect & _)]]; [apply incl_refl|].
      now apply collect_manifests_sources in Hcollect. }
    apply round_visit_details in Hround
      as [Hsame|(url & data & items & Hv & Hfetch & Hcollect)].
    - rewrite Hsame in Hc. exact (set_mem_incl _ _ _ (Hinv c id Hc Hlist) Hincl).
    - rewrite Hv in Hc. apply in_app_or in Hc as [Hc|[<-|[]]].
      + exact (set_mem_incl _ _ _ (Hinv c id Hc Hlist) Hincl).
      + apply collect_manifests_complete in Hcollect as (Hitems & ids & Hids & Hall).
        destruct Hlist as (data' & items' & ids' & Hdoc & Hitems' & Hids' & Hin).
        rewrite <- (fetch_is_doc url w0), Hfetch in Hdoc. cbn [fst] in Hdoc.
        injection Hdoc as <-. rewrite Hitems in Hitems'. injection Hitems' as <-.
        rewrite Hids in Hids'. injection Hids' as <-. now apply Hall. }
  destruct (walk_stops_in_invariant None Inv Hkeep _ _ _ _ _ _ _ Hwalk)
    as (st0 & w0 & calls0 & Hinv & Hstop); [intros c id []|].
  intros c id Hc Hlist. unfold walk_result in *. cbn [fst snd py_take] in *.
  assert (Hincl : incl (manifest_ids st0) (manifest_ids st)).
  { destruct (round_manifests_from_fetch None _ _ _ _ _ _ (or_intror Hstop))
      as [_ [->|(url & data & r & _ & Hcollect & _)]]; [apply incl_refl|].
    now apply collect_manifests_sources in Hcollect. }
  apply round_stop_cases in Hstop as [Hv _].
  apply (Permutation_in _ (set_order_perm (collection_ids st))) in Hc.
  rewrite Hv in Hc.
  apply (set_mem_incl id (manifest_ids st)).
  - exact (set_mem_incl _ _ _ (Hinv c id Hc Hlist) Hincl).
  - intros v Hv'. exact (Permutation_in _ (Permutation_sym (set_order_perm _)) Hv').
Qed.

End Discovery.

Lemma site_fetch_is_doc (pages : string -> result json) :
  forall url w, fst (@fetch_json unit (site pages) url w) = site_doc pages url.
Proof. intros url w. reflexivity. Defined.

Lemma diamond_lists_manifest_2 :
  @lists_manifest plain_runtime (site_doc diamond_pages) (JStr child_c) (JStr manifest_2).
Proof.
  exists (collection_doc [item "Manifest" manifest_1; item "Manifest" manifest_2]),
         (JArr [item "Manifest" manifest_1; item "Manifest" manifest_2]),
         [JStr manifest_1; JStr manifest_2].
  repeat split; try reflexivity. simpl. auto.
Defined.

Lemma returned_manifests_are_listed_witness :
  exists url,
    In url (map call_url
              [mkCall (JStr root_url) true; mkCall (JStr child_a) true;
               mkCall (JStr child_b) true; mkCall (JStr child_c) true])
    /\ @lists_manifest plain_runtime (site_doc diamond_pages) url (JStr manifest_1).
Proof.
  apply (@returned_manifests_are_listed plain_runtime unit (site diamond_pages)
           (site_doc diamond_pages) (site_fetch_is_doc diamond_pages)
           8 root_url None tt tt _ _ _ diamond_walk).
  simpl. auto.
Defined.

Lemma listed_manifests_are_returned_witness :
  set_mem (JStr manifest_2) [JStr manifest_1; JStr manifest_2] = true.
Proof.
  apply (@listed_manifests_are_returned plain_runtime unit (site diamond_pages)
           (site_doc diamond_pages) (site_fetch_is_doc diamond_pages)
           8 root_url tt tt _ _ _ diamond_walk (JStr child_c) (JStr manifest_2)).
  - simpl. auto.
  - exact diamond_lists_manifest_2.
Defined.

Lemma collections_are_the_visited_calls_witness :
  Permutation [JStr root_url; JStr child_a; JStr child_b; JStr child_c]
    (map call_url
       (filter call_visited
          [mkCall (JStr root_url) true; mkCall (JStr child_a) true;
           mkCall (JStr child_b) true; mkCall (JStr child_c) true])).
Proof.
  exact (@collections_are_the_visited_calls plain_runtime unit diamond_site
           8 root_url None tt tt _ _ _ diamond_walk).
Defined.

Lemma returned_ids_form_sets_witness :
  is_set [JStr manifest_1; JStr manifest_2]
  /\ is_set [JStr root_url; JStr child_a; JStr child_b; JStr child_c]
  /\ Forall (fun v => hashable v = true /\ truthy v = true)
       [JStr manifest_1; JStr manifest_2]
  /\ Forall (fun v => hashable v = true)
       [JStr root_url; JStr child_a; JStr child_b; JStr child_c].
Proof.
  exact (@returned_ids_form_sets plain_runtime unit diamond_site
           8 root_url None tt tt _ _ _ diamond_walk).
Defined.

Example unhashable_walk :
  walk_on unhashable_site 3 None
  = Some (Raise TypeError, tt, [mkCall (JStr root_url) true]).
Proof. reflexivity. Qed.

Lemma walk_never_raises_a_fetch_error_witness :
  is_fetch_error TypeError = false
  /\ (TypeError = TypeError
      \/ exists url w0, @fetch_json unit unhashable_site url w0 = (Raise TypeError, tt)).
Proof.
  exact (@walk_never_raises_a_fetch_error plain_runtime unit unhashable_site
           3 root_url None tt tt TypeError _ unhashable_walk).
Defined.

Lemma normalized_type_witness :
  has_char ":" "manifest" = false /\ lower "manifest" = "manifest".
Proof.
  exact (normalized_type_is_lower_without_colon plain_runtime
           (item_v2 "sc:Manifest" manifest_1) "manifest" eq_refl).
Defined.

(** ** The fetcher and its cache *)

Section FetcherProperties.

Context {World : Type}.

(** X14.  With [no_cache] the cache is never used: two clients whose sessions and
    decoders agree return the same result in the same world, whatever their
    caches do.  With [skip_cache] the cache is never read: two clients that
    differ only in what [cache.get] returns behave alike. *)
Theorem fetch_json_respects_the_cache_flags :
  forall (c1 c2 : Collaborators World) (url : json) (w : World),
    (forall u w0, session_get c1 u w0 = session_get c2 u w0) ->
    (forall body, super_decode c1 body = super_decode c2 body) ->
    (forall skip_cache,
        IIIFClient_fetch_json c1 skip_cache true url w
        = IIIFClient_fetch_json c2 skip_cache true url w)
    /\ ((forall u d w0, cache_put c1 u d w0 = cache_put c2 u d w0) ->
        forall no_cache,
          IIIFClient_fetch_json c1 true no_cache url w
          = IIIFClient_fetch_json c2 true no_cache url w).
Proof.
  intros c1 c2 url w Hsession Hdecode.
  split; [intros skip_cache | intros Hput no_cache];
    unfold IIIFClient_fetch_json, TrailingCommaJSONDecoder_decode;
    rewrite ?andb_false_r; cbn [negb andb].
  - rewrite Hsession. destruct (session_get c2 url w) as [[[status body]|e] w1];
      [|reflexivity].
    now rewrite Hdecode.
  - rewrite Hsession. destruct (session_get c2 url w) as [[[status body]|e] w1];
      [|reflexivity].
    rewrite Hdecode.
    destruct (_ <- raise_for_status status ;; super_decode c2 (fix_trailing_commas body));
      [|reflexivity].
    now rewrite Hput.
Qed.

(** X15.  A document fetched from the network with the cache in use is served
    from the cache the next time: when the cache gives back what was put
    (and the document is not [null]), the second call returns the same
    document after [cache.get] alone, without a request. *)
Theorem second_fetch_is_served_from_the_cache :
  forall (c : Collaborators World) (url data : json) (status : Z)
         (body : list codepoint) (w w0 w1 w2 w3 : World),
    cache_get c url w = (Ok JNull, w0) ->
    session_get c url w0 = (Ok (status, body), w1) ->
    raise_for_status status = Ok tt ->
    TrailingCommaJSONDecoder_decode (super_decode c) body = Ok data ->
    cache_put c url data w1 = (Ok tt, w2) ->
    cache_get c url w2 = (Ok data, w3) ->
    data <> JNull ->
    IIIFClient_fetch_json c false false url w = (Ok data, w2)
    /\ IIIFClient_fetch_json c false false url w2 = (Ok data, w3).
Proof.
  intros c url data status body w w0 w1 w2 w3
         Hmiss Hget Hstatus Hdecode Hput Hhit Hdata.
  unfold IIIFClient_fetch_json. cbn [negb andb]. split.
  - rewrite Hmiss, Hget, Hstatus. cbn [bind]. now rewrite Hdecode, Hput.
  - rewrite Hhit. destruct data; try reflexivity. now contradict Hdata.
Qed.

(** X16.  Whenever [fetch_json] sends its request (the cache is disabled or
    skipped, or the lookup finds nothing), a failure of the request, a
    response with an error status, or a body that does not parse after the
    repair makes it raise (the exception of the session, [HTTPError], or the
    error of the decoder) in the world left by the request: nothing is put
    in the cache.  This holds for every value of the two flags. *)
Theorem failed_fetch_is_not_cached :
  forall (c : Collaborators World) (skip_cache no_cache : bool) (url : json)
         (w w0 : World),
    (negb no_cache && negb skip_cache = false /\ w0 = w)
    \/ (negb no_cache && negb skip_cache = true
        /\ cache_get c url w = (Ok JNull, w0)) ->
    (forall e w1,
        session_get c url w0 = (Raise e, w1) ->
        IIIFClient_fetch_json c skip_cache no_cache url w = (Raise e, w1))
    /\ (forall status body w1,
        session_get c url w0 = (Ok (status, body), w1) ->
        (400 <= status < 600)%Z ->
        IIIFClient_fetch_json c skip_cache no_cache url w = (Raise HTTPError, w1))
    /\ (forall status body w1 e,
        session_get c url w0 = (Ok (status, body), w1) ->
        raise_for_status status = Ok tt ->
        super_decode c (fix_trailing_commas body) = Raise e ->
        IIIFClient_fetch_json c skip_cache no_cache url w = (Raise e, w1)).
Proof.
  intros c skip_cache no_cache url w w0 Hpath.
  assert (Hrequest :
            IIIFClient_fetch_json c skip_cache no_cache url w
            = match session_get c url w0 with
              | (Raise e, w1) => (Raise e, w1)
              | (Ok (status, body), w1) =>
                  match (_ <- raise_for_status status ;;
                         TrailingCommaJSONDecoder_decode (super_decode c) body) with
                  | Raise e => (Raise e, w1)
                  | Ok data =>
                      if negb no_cache then
                        match cache_put c url data w1 with
                        | (Raise e, w2) => (Raise e, w2)
                        | (Ok _, w2) => (Ok data, w2)
                        end
                      else (Ok data, w1)
                  end
              end).
  { unfold IIIFClient_fetch_json.
    destruct Hpath as [[-> ->]|[-> Hmiss]]; [reflexivity | now rewrite Hmiss]. }
  rewrite Hrequest. unfold TrailingCommaJSONDecoder_decode.
  split; [|split].
  - intros e w1 Hget. now rewrite Hget.
  - intros status body w1 Hget [Hlo Hhi]. rewrite Hget. unfold raise_for_status.
    destruct (Z.leb_spec 400 status) as [_|]; [|lia].
    destruct (Z.ltb_spec status 600) as [_|]; [|lia]. reflexivity.
  - intros status body w1 e Hget Hstatus Hdecode.
    rewrite Hget, Hstatus. cbn [bind]. now rewrite Hdecode.
Qed.

End FetcherProperties.

(** ** Runs of the fetcher *)

Lemma second_fetch_witness :
  IIIFClient_fetch_json
    (memory_client 200 (codepoints "[1,2,]") (Ok (JArr [JNum 1; JNum 2])))
    false false (JStr manifest_1) []
    = (Ok (JArr [JNum 1; JNum 2]), [(JStr manifest_1, JArr [JNum 1; JNum 2])])
  /\ IIIFClient_fetch_json
       (memory_client 200 (codepoints "[1,2,]") (Ok (JArr [JNum 1; JNum 2])))
       false false (JStr manifest_1) [(JStr manifest_1, JArr [JNum 1; JNum 2])]
     = (Ok (JArr [JNum 1; JNum 2]), [(JStr manifest_1, JArr [JNum 1; JNum 2])]).
Proof.
  apply (second_fetch_is_served_from_the_cache
           (memory_client 200 (codepoints "[1,2,]") (Ok (JArr [JNum 1; JNum 2])))
           (JStr manifest_1) (JArr [JNum 1; JNum 2]) 200%Z (codepoints "[1,2,]")
           [] [] []);
    try reflexivity.
  discriminate.
Defined.

Lemma cache_flags_witness :
  IIIFClient_fetch_json
    (memory_client 200 (codepoints "[1,2,]") (Ok (JArr [JNum 1; JNum 2])))
    false true (JStr manifest_1) [(JStr manifest_1, JNum 7)]
  = IIIFClient_fetch_json
      (forgetful_client 200 (codepoints "[1,2,]") (Ok (JArr [JNum 1; JNum 2])))
      false true (JStr manifest_1) [(JStr manifest_1, JNum 7)].
Proof.
  apply (proj1 (fetch_json_respects_the_cache_flags
                  (memory_client 200 (codepoints "[1,2,]") (Ok (JArr [JNum 1; JNum 2])))
                  (forgetful_client 200 (codepoints "[1,2,]") (Ok (JArr [JNum 1; JNum 2])))
                  (JStr manifest_1) [(JStr manifest_1, JNum 7)]
                  (fun _ _ => eq_refl) (fun _ => eq_refl))).
Defined.

Lemma failed_fetch_witness :
  IIIFClient_fetch_json
    (memory_client 404 (codepoints "{}") (Ok (JObj [])))
    false false (JStr manifest_1) []
  = (Raise HTTPError, [])
  /\ IIIFClient_fetch_json
       (memory_client 200 (codepoints "{,}") (Raise JSONDecodeError))
       true false (JStr manifest_1) []
     = (Raise JSONDecodeError, []).
Proof.
  split.
  - apply (proj1 (proj2 (failed_fetch_is_not_cached
                    (memory_client 404 (codepoints "{}") (Ok (JObj [])))
                    false false (JStr manifest_1) [] []
                    (or_intror (conj eq_refl eq_refl))))
             404%Z (codepoints "{}") [] eq_refl).
    lia.
  - apply (proj2 (proj2 (failed_fetch_is_not_cached
                    (memory_client 200 (codepoints "{,}") (Raise JSONDecodeError))
                    true false (JStr manifest_1) [] []
                    (or_introl (conj eq_refl eq_refl))))
             200%Z (codepoints "{,}") [] JSONDecodeError eq_refl eq_refl eq_refl).
Defined.

(** ** Formatted URLs are complete requests *)

Lemma chars_app (a b : string) : chars (a ++ b)%string = chars a ++ chars b.
Proof.
  unfold chars. induction a as [|c a IH]; [reflexivity|]. simpl. now rewrite IH.
Qed.

Lemma text_chars (s : string) : text (chars s) = s.
Proof. apply string_of_list_ascii_of_string. Qed.

Lemma starts_with_inv (p : list ascii) :
  forall l, starts_with p l = true -> exists rest, l = p ++ rest.
Proof.
  induction p as [|a p IH]; intros l Hl; [now exists l|].
  destruct l as [|b l]; [discriminate Hl|].
  cbn [starts_with] in Hl. apply andb_true_iff in Hl as [Hab Hrest].
  apply Ascii.eqb_eq in Hab as ->.
  destruct (IH l Hrest) as [rest ->]. now exists rest.
Qed.

Lemma span_run (p : ascii -> bool) (run : list ascii) (c : ascii) (rest : list ascii) :
  forallb p run = true -> p c = false ->
  span p (run ++ c :: rest) = (run, c :: rest).
Proof.
  intros Hrun Hc. induction run as [|d run IH]; simpl; [now rewrite Hc|].
  simpl in Hrun. apply andb_true_iff in Hrun as [Hd Hrun].
  now rewrite Hd, (IH Hrun).
Qed.

Lemma uint_digits (d : Decimal.uint) :
  forallb is_digit (chars (NilEmpty.string_of_uint d)) = true.
Proof. induction d; simpl; auto. Qed.

(** [str(n)] for [n >= 0] is a run of digits that is not empty. *)
Lemma str_of_int_digits (n : Z) :
  (0 <= n)%Z ->
  exists d ds,
    rev (chars (str_of_int n)) = d :: ds /\ forallb is_digit (d :: ds) = true.
Proof.
  intros Hn.
  assert (Huint : forall u, exists d ds,
             rev (chars (NilZero.string_of_uint u)) = d :: ds
             /\ forallb is_digit (d :: ds) = true).
  { intros u.
    assert (Hall : forallb is_digit (rev (chars (NilZero.string_of_uint u))) = true).
    { apply forallb_forall. intros x Hx. apply in_rev in Hx.
      revert x Hx. apply forallb_forall.
      destruct u; try apply (uint_digits (_ u)); reflexivity. }
    destruct (rev (chars (NilZero.string_of_uint u))) as [|d ds] eqn:Hrev.
    - apply (f_equal (@List.length ascii)) in Hrev. rewrite length_rev in Hrev.
      destruct u; discriminate Hrev.
    - now exists d, ds. }
  unfold str_of_int. destruct n as [|p|p]; [apply Huint | apply Huint | lia].
Qed.

Lemma request_before_tail (rest : list ascii) :
  request_before (rev (chars "/0/default.jpg") ++ rest) = size_before rest.
Proof. reflexivity. Qed.

Lemma size_before_dimensions (w h bang rest : list ascii) :
  (exists d ds, w = d :: ds /\ forallb is_digit (d :: ds) = true) ->
  (exists d ds, h = d :: ds /\ forallb is_digit (d :: ds) = true) ->
  bang = [] \/ bang = ["!"%char] ->
  size_before (h ++ ","%char :: w ++ bang ++ rev (chars "/full/") ++ rest) = true.
Proof.
  intros (dw & dsw & Ew & Hw) (dh & dsh & Eh & Hh) Hbang.
  rewrite <- Ew in Hw. rewrite <- Eh in Hh.
  unfold size_before. apply orb_true_iff. right.
  rewrite (span_run is_digit h) by (exact Hh || reflexivity).
  rewrite Eh. cbn [Ascii.eqb Bool.eqb andb].
  assert (Hspan : exists c x,
             bang ++ rev (chars "/full/") ++ rest = c :: x
             /\ is_digit c = false
             /\ starts_with (rev (chars "/full/")) (c :: x)
                || starts_with (rev (chars "/full/!")) (c :: x) = true).
  { destruct Hbang as [-> | ->]; eexists; eexists; repeat split. }
  destruct Hspan as (c & x & -> & Hc & Hstart).
  rewrite (span_run is_digit w c x Hw Hc). rewrite Ew. exact Hstart.
Qed.

Lemma built_url_is_a_request (base : string) (is_v2 : bool) (width height : Z)
    (exact use_max : bool) :
  use_max = true \/ (0 <= width /\ 0 <= height)%Z ->
  is_image_request
    (base ++ "/full/" ++ size_param is_v2 width height exact use_max
       ++ "/0/default." ++ "jpg")%string = true.
Proof.
  intros Hsize. unfold is_image_request. apply orb_true_iff. left.
  rewrite !chars_app, !rev_app_distr, <- !app_assoc.
  change (rev (chars "jpg") ++ rev (chars "/0/default.") ++ ?x)
    with (rev (chars "/0/default.jpg") ++ x).
  rewrite request_before_tail.
  unfold size_param. destruct use_max.
  - destruct is_v2; reflexivity.
  - destruct Hsize as [Hmax|[Hw Hh]]; [discriminate Hmax|].
    rewrite !chars_app, !rev_app_distr, <- !app_assoc.
    change (rev (chars ",") ++ ?x) with (","%char :: x).
    apply size_before_dimensions.
    + exact (str_of_int_digits width Hw).
    + exact (str_of_int_digits height Hh).
    + destruct exact; auto.
Qed.

Lemma request_is_not_info_json (s : string) :
  is_image_request s = true -> strip_info_json s = s.
Proof.
  unfold is_image_request, strip_info_json, request_before.
  intros Hreq. apply orb_true_iff in Hreq as [Hreq|Hreq].
  - apply andb_true_iff in Hreq as [Htail _].
    apply starts_with_inv in Htail as [rest ->]. reflexivity.
  - destruct (rev (chars s)) as [|c r']; [discriminate Hreq|].
    apply andb_true_iff in Hreq as [Hc Hreq].
    apply andb_true_iff in Hreq as [Htail _].
    apply Ascii.eqb_eq in Hc as ->.
    apply starts_with_inv in Htail as [rest ->]. reflexivity.
Qed.

Lemma format_image_url_gives_request (is_v2 : bool) (width height : Z)
    (exact use_max : bool) (image_id : json) (url : string) :
  use_max = true \/ (0 <= width /\ 0 <= height)%Z ->
  format_image_url is_v2 width height "jpg" exact use_max image_id = Ok url ->
  is_image_request url = true.
Proof.
  intros Hsize Hformat. unfold format_image_url in Hformat.
  destruct image_id as [| | |s| |]; try discriminate Hformat.
  destruct (is_image_request (strip_info_json s)) eqn:Halready;
    injection Hformat as <-; [exact Halready|].
  now apply built_url_is_a_request.
Qed.

(** X17.  With the format [jpg], and with [use_max] or dimensions that are not
    negative, every URL that the formatting step produces is a complete
    image request (it matches the pattern of line 364), and formatting it
    once more, with any options, gives it back unchanged: no second suffix
    is appended. *)
Theorem formatted_url_is_a_fixed_point :
  forall (is_v2 : bool) (width height : Z) (exact use_max : bool)
         (image_id : json) (url : string),
    use_max = true \/ (0 <= width /\ 0 <= height)%Z ->
    format_image_url is_v2 width height "jpg" exact use_max image_id = Ok url ->
    is_image_request url = true
    /\ forall is_v2' width' height' format' exact' use_max',
        format_image_url is_v2' width' height' format' exact' use_max' (JStr url)
        = Ok url.
Proof.
  intros is_v2 width height exact use_max image_id url Hsize Hformat.
  pose proof (format_image_url_gives_request _ _ _ _ _ _ _ Hsize Hformat) as Hreq.
  split; [exact Hreq|].
  intros is_v2' width' height' format' exact' use_max'.
  unfold format_image_url.
  now rewrite (request_is_not_info_json url Hreq), Hreq.
Qed.

Lemma format_all_urls (P : string -> Prop) (is_v2 : bool) (width height : Z)
    (format : string) (exact use_max : bool) (image_ids : list json) :
  (forall image_id url,
      format_image_url is_v2 width height format exact use_max image_id = Ok url ->
      P url) ->
  Forall P (fst (format_all is_v2 width height format exact use_max image_ids)).
Proof.
  intros Hone. induction image_ids as [|image_id rest IH]; [constructor|].
  cbn [format_all].
  destruct (format_all is_v2 width height format exact use_max rest) as [urls logs].
  destruct (format_image_url is_v2 width height format exact use_max image_id)
    as [url|e] eqn:Hformat; cbn [fst] in *; [|exact IH].
  constructor; [exact (Hone image_id url Hformat) | exact IH].
Qed.

Section RequestsReturned.

Context {World : Type} {F : Fetcher World}.

(** X18.  With the format [jpg], and with [use_max] or dimensions that are not
    negative, every URL in the list that [get_manifest_images] returns is a
    complete image request, whatever the manifest holds. *)
Theorem get_manifest_images_returns_requests :
  forall (url : string) (width height : Z) (exact use_max : bool)
         (w w' : World) (urls : list string) (logs : list log_record),
    use_max = true \/ (0 <= width /\ 0 <= height)%Z ->
    get_manifest_images url width height "jpg" exact use_max w = (Ok urls, w', logs) ->
    Forall (fun u => is_image_request u = true) urls.
Proof.
  intros url width height exact use_max w w' urls logs Hsize.
  assert (Hfinish : forall is_v2 w1 image_ids,
             match image_ids with
             | [] => (Ok [], w1, [DebugNoImageIds])
             | _ :: _ =>
                 let (urls0, logs0) :=
                   format_all is_v2 width height "jpg" exact use_max image_ids in
                 (Ok urls0, w1, logs0)
             end = (Ok urls, w', logs) ->
             Forall (fun u => is_image_request u = true) urls).
  { intros is_v2 w1 image_ids Heq.
    destruct image_ids as [|i rest]; [injection Heq as <- _ _; constructor|].
    pose proof (format_all_urls (fun u => is_image_request u = true)
                  is_v2 width height "jpg" exact use_max (i :: rest)) as Hall.
    destruct (format_all is_v2 width height "jpg" exact use_max (i :: rest))
      as [urls0 logs0].
    injection Heq as <- _ _. apply Hall. intros image_id u Hformat.
    exact (format_image_url_gives_request _ _ _ _ _ _ _ Hsize Hformat). }
  unfold get_manifest_images.
  destruct (fetch_json (JStr url) w) as [fetched w1].
  destruct (data <- fetched ;; context <- py_get data "@context" JNull ;; Ok (data, context))
    as [[data context]|e]; [|discriminate].
  destruct (eq_str v3_context context).
  - destruct (v3_image_ids data) as [image_ids|e]; [apply Hfinish|].
    intros Heq. injection Heq as <- _ _. constructor.
  - destruct (eq_str v2_context context).
    + destruct (v2_image_ids data) as [image_ids|e]; [apply Hfinish | discriminate].
    + intros Heq. injection Heq as <- _ _. constructor.
Qed.

End RequestsReturned.

Lemma formatted_url_witness :
  is_image_request "https://ex.org/img/1/full/!100,200/0/default.jpg" = true
  /\ forall is_v2' width' height' format' exact' use_max',
      format_image_url is_v2' width' height' format' exact' use_max'
        (JStr "https://ex.org/img/1/full/!100,200/0/default.jpg")
      = Ok "https://ex.org/img/1/full/!100,200/0/default.jpg".
Proof.
  apply (formatted_url_is_a_fixed_point false 100 200 false false
           (JStr "https://ex.org/img/1/info.json")).
  - right. lia.
  - reflexivity.
Defined.

Lemma returned_requests_witness :
  Forall (fun u => is_image_request u = true)
    ["https://ex.org/img/1/full/!100,200/0/default.jpg"].
Proof.
  apply (@get_manifest_images_returns_requests unit
           (serving (v3_manifest (JStr "https://ex.org/img/1")))
           manifest_url 100 200 false false tt tt _ []).
  - right. lia.
  - reflexivity.
Defined.

(** ** Every listed collection is tried *)

Section Reach.

Context {RT : PyRuntime} {World : Type} {F : Fetcher World}.

(** The queue, the visited set and the calls after a round that goes on. *)
Lemma round_next_queue (max_manifests : option Z) (st st' : walk_state)
    (w w' : World) (calls calls' : list fetch_call) :
  round max_manifests st w calls = Next st' w' calls' ->
  exists url queue,
    collection_urls_queue st = url :: queue /\ hashable url = true
    /\ ((set_mem url (collection_ids st) = true
         /\ collection_urls_queue st' = queue
         /\ collection_ids st' = collection_ids st
         /\ calls' = calls)
        \/ (collection_urls_queue st' = queue
            /\ collection_ids st' = collection_ids st
            /\ calls' = calls ++ [mkCall url false])
        \/ (exists data items nested,
              fetch_json url w = (Ok data, w')
              /\ child_items data = Ok items
              /\ item_ids_of_kind "collection" items url = Ok nested
              /\ collection_urls_queue st' = queue ++ nested
              /\ collection_ids st' = collection_ids st ++ [url]
              /\ calls' = calls ++ [mkCall url true])).
Proof.
  destruct st as [queue found visited]. unfold round.
  cbn [collection_urls_queue collection_ids manifest_ids].
  destruct queue as [|url queue]; [discriminate|].
  unfold py_in_set. destruct (hashable url) eqn:Hhash; [|discriminate].
  intros Hround. exists url, queue. split; [reflexivity|]. split; [exact Hhash|].
  destruct (set_mem url visited) eqn:Hnew.
  { injection Hround as <- _ <-. left. auto. }
  right.
  destruct (fetch_json url w) as [[data|e] w1] eqn:Hfetch.
  - destruct (collect_manifests url data found) as [found' [items|e]] eqn:Hfound.
    + destruct (limit_reached max_manifests (List.length found')); [discriminate|].
      apply collect_manifests_complete in Hfound as [Hitems _].
      destruct (item_ids_of_kind "collection" items url) as [nested|e] eqn:Hnested;
        injection Hround as <- <- <-; cbn [collection_urls_queue collection_ids].
      * right. exists data, items, nested.
        unfold set_add. rewrite Hnew. repeat split; assumption.
      * left. auto.
    + injection Hround as <- <- <-. left. auto.
  - destruct (is_fetch_error e); [|discriminate].
    injection Hround as <- <- <-. left. auto.
Qed.

(** Without a bound, the loop ends with a state only when the queue is empty. *)
Lemma round_stop_unbounded (st st' : walk_state) (w w' : World)
    (calls calls' : list fetch_call) :
  round None st w calls = Stop (Ok st') w' calls' ->
  collection_urls_queue st = [] /\ st' = st /\ calls' = calls.
Proof.
  destruct st as [queue found visited]. unfold round.
  cbn [collection_urls_queue collection_ids manifest_ids limit_reached].
  destruct queue as [|url queue]; [intros H; injection H as <- _ <-; auto|].
  destruct (py_in_set url visited) as [[|]|]; try discriminate.
  destruct (fetch_json url w) as [[data|e] w1].
  - destruct (collect_manifests url data found) as [found' [items|e]]; [|discriminate].
    destruct (item_ids_of_kind "collection" items url); discriminate.
  - destruct (is_fetch_error e); discriminate.
Qed.

Lemma was_fetched_more (url : json) (calls more : list fetch_call) :
  was_fetched url calls -> was_fetched url (calls ++ more).
Proof.
  intros (c & Hc & Heq). exists c. split; [apply in_or_app; now left | exact Heq].
Qed.

Lemma was_fetched_last (url : json) (calls : list fetch_call) (b : bool) :
  hashable url = true -> was_fetched url (calls ++ [mkCall url b]).
Proof.
  intros Hhash. exists (mkCall url b).
  split; [apply in_or_app; right; now left | now apply py_eqb_refl].
Qed.

Variable doc : json -> result json.

Hypothesis fetch_is_doc : forall url w, fst (fetch_json url w) = doc url.

(** X13.  When the document at a URL does not depend on the world and the walk
    without a bound returns, every collection listed by the document of a
    returned collection has been tried: [fetch_json] was called on a URL
    equal to its identifier. *)
Theorem listed_collections_are_fetched :
  forall (fuel : nat) (collection_url : string)
         (w w' : World) (manifests collections : list json) (calls : list fetch_call),
    get_manifests_and_collections_ids fuel collection_url None w
      = Some (Ok (manifests, collections), w', calls) ->
    forall c id, In c collections -> lists_collection doc c id ->
      was_fetched id calls.
Proof.
  intros fuel collection_url w w' manifests collections calls Hrun.
  unfold get_manifests_and_collections_ids in Hrun.
  destruct (walk fuel None _ w []) as [[[r w1] calls1]|] eqn:Hwalk;
    [|discriminate Hrun].
  destruct r as [st|e1]; [|discriminate Hrun]. injection Hrun as <- <- -> ->.
  set (Inv := fun (s : walk_state) (cs : list fetch_call) =>
                (forall v, In v (collection_ids s) -> In v (map call_url cs))
                /\ forall c id, In c (collection_ids s) -> lists_collection doc c id ->
                     In id (collection_urls_queue s) \/ was_fetched id cs).
  assert (Hkeep : forall s w0 c s' w0' c',
             Inv s c -> round None s w0 c = Next s' w0' c' -> Inv s' c').
  { unfold Inv. intros s w0 cs s' w0' cs' [Hvis Hinv] Hround.
    apply round_next_queue in Hround
      as (url & queue & Hq & Hhash & [(Hmem & Hq' & Hv & ->)|[(Hq' & Hv & ->)|(data & items & nested & Hfetch & Hitems & Hnested & Hq' & Hv & ->)]]);
      rewrite Hq', Hv; rewrite Hq in Hinv.
    - split; [exact Hvis|]. intros c id Hc Hlist.
      destruct (Hinv c id Hc Hlist) as [[<-|Hin]|Hdone]; auto.
      right. unfold set_mem in Hmem. apply existsb_exists in Hmem as (v & Hv' & Heq).
      apply Hvis, in_map_iff in Hv' as (call & <- & Hcall). now exists call.
    - split.
      + intros v Hv'. rewrite map_app. apply in_or_app. left. now apply Hvis.
      + intros c id Hc Hlist.
        destruct (Hinv c id Hc Hlist) as [[<-|Hin]|Hdone]; auto.
        * right. now apply was_fetched_last.
        * right. now apply was_fetched_more.
    - split.
      + intros v Hv'. rewrite map_app. apply in_or_app.
        apply in_app_or in Hv' as [Hv'|[<-|[]]]; [left; now apply Hvis | right; now left].
      + intros c id Hc Hlist. apply in_app_or in Hc as [Hc|[<-|[]]].
        * destruct (Hinv c id Hc Hlist) as [[<-|Hin]|Hdone].
          -- right. now apply was_fetched_last.
          -- left. apply in_or_app. now left.
          -- right. now apply was_fetched_more.
        * destruct Hlist as (data' & items' & ids' & Hdoc & Hitems' & Hids' & Hin).
          rewrite <- (fetch_is_doc url w0), Hfetch in Hdoc. cbn [fst] in Hdoc.
          injection Hdoc as <-. rewrite Hitems in Hitems'. injection Hitems' as <-.
          rewrite Hnested in Hids'. injection Hids' as <-.
          left. apply in_or_app. now right. }
  destruct (walk_stops_in_invariant None Inv Hkeep _ _ _ _ _ _ _ Hwalk)
    as (st0 & w0 & calls0 & [_ Hinv] & Hstop).
  { split; [intros v []|intros c id []]. }
  apply round_stop_unbounded in Hstop as (Hempty & -> & ->).
  intros c id Hc Hlist. unfold walk_result in Hc. cbn [snd] in Hc.
  apply (Permutation_in _ (set_order_perm (collection_ids st0))) in Hc.
  destruct (Hinv c id Hc Hlist) as [Hin|Hdone]; [|exact Hdone].
  rewrite Hempty in Hin. destruct Hin.
Qed.

End Reach.

Lemma diamond_lists_child_c :
  @lists_collection plain_runtime (site_doc diamond_pages) (JStr child_b) (JStr child_c).
Proof.
  exists (collection_doc [item "Collection" child_c]),
         (JArr [item "Collection" child_c]), [JStr child_c].
  repeat split; try reflexivity. simpl. auto.
Defined.

Lemma listed_collections_are_fetched_witness :
  was_fetched (JStr child_c)
    [mkCall (JStr root_url) true; mkCall (JStr child_a) true;
     mkCall (JStr child_b) true; mkCall (JStr child_c) true].
Proof.
  apply (@listed_collections_are_fetched plain_runtime unit (site diamond_pages)
           (site_doc diamond_pages) (site_fetch_is_doc diamond_pages)
           8 root_url tt tt _ _ _ diamond_walk (JStr child_b) (JStr child_c)).
  - simpl. auto.
  - exact diamond_lists_child_c.
Defined.

(** ** A trailing [/info.json] *)

(** X19.  An identifier given as the URL of an [info.json] is formatted as its
    base: the suffix [/info.json] is removed before the request suffix is
    appended, or before the base is recognised as a complete request. *)
Theorem info_json_suffix_is_dropped :
  forall (is_v2 : bool) (width height : Z) (format : string) (exact use_max : bool)
         (base : string),
    strip_info_json (base ++ "/info.json") = base
    /\ format_image_url is_v2 width height format exact use_max
         (JStr (base ++ "/info.json"))
       = Ok (if is_image_request base then base
             else (base ++ "/full/" ++ size_param is_v2 width height exact use_max
                     ++ "/0/default." ++ format)%string).
Proof.
  intros is_v2 width height format exact use_max base.
  assert (Hstrip : strip_info_json (base ++ "/info.json") = base).
  { unfold strip_info_json. rewrite chars_app, rev_app_distr.
    cbn [starts_with rev chars list_ascii_of_string app Ascii.eqb Bool.eqb andb
         skipn List.length].
    rewrite rev_involutive. apply text_chars. }
  split; [exact Hstrip|].
  unfold format_image_url. rewrite Hstrip.
  destruct (is_image_request base); reflexivity.
Qed.

(** ** The kind of an item, and what the item adds *)

Lemma filterM_app {A : Type} (p : A -> result bool) (l1 l2 : list A) :
  filterM p (l1 ++ l2)
  = (a <- filterM p l1 ;; b <- filterM p l2 ;; Ok (a ++ b)).
Proof.
  induction l1 as [|x l1 IH]; simpl.
  - destruct (filterM p l2); reflexivity.
  - destruct (p x) as [keep|e]; cbn [bind]; [|reflexivity].
    rewrite IH. destruct (filterM p l1) as [a|e]; cbn [bind]; [|reflexivity].
    destruct (filterM p l2) as [b|e]; cbn [bind]; [|reflexivity].
    destruct keep; reflexivity.
Qed.

Lemma mapM_app {A B : Type} (f : A -> result B) (l1 l2 : list A) :
  mapM f (l1 ++ l2) = (a <- mapM f l1 ;; b <- mapM f l2 ;; Ok (a ++ b)).
Proof.
  induction l1 as [|x l1 IH]; simpl.
  - destruct (mapM f l2); reflexivity.
  - destruct (f x) as [y|e]; cbn [bind]; [|reflexivity].
    rewrite IH. destruct (mapM f l1) as [a|e]; cbn [bind]; [|reflexivity].
    destruct (mapM f l2) as [b|e]; reflexivity.
Qed.

Section KindOfItem.

Context {RT : PyRuntime} {World : Type} {F : Fetcher World}.

Lemma item_ids_app (word : string) (l1 l2 : list json) (url : json) (ids : list json) :
  item_ids_of_kind word (JArr (l1 ++ l2)) url = Ok ids ->
  exists a b,
    item_ids_of_kind word (JArr l1) url = Ok a
    /\ item_ids_of_kind word (JArr l2) url = Ok b
    /\ ids = a ++ b.
Proof.
  unfold item_ids_of_kind. cbn [py_iter bind].
  rewrite filterM_app.
  destruct (filterM (has_kind word) l1) as [s1|e]; cbn [bind]; [|discriminate].
  destruct (filterM (has_kind word) l2) as [s2|e]; cbn [bind]; [|discriminate].
  rewrite mapM_app.
  destruct (mapM (fun i => _normalize_item_id i url) s1) as [i1|e]; cbn [bind];
    [|discriminate].
  destruct (mapM (fun i => _normalize_item_id i url) s2) as [i2|e]; cbn [bind];
    [|discriminate].
  intros Heq. injection Heq as <-.
  exists (filter truthy i1), (filter truthy i2).
  repeat split. apply filter_app.
Qed.

Lemma item_ids_single (word kind : string) (kvs : list (string * json)) (url : json) :
  _normalize_item_type (JObj kvs) = Ok kind ->
  item_ids_of_kind word (JArr [JObj kvs]) url = Ok (adds word kind (declared_id kvs)).
Proof.
  intros Hnorm. unfold item_ids_of_kind, has_kind, adds. cbn [py_iter bind filterM].
  rewrite Hnorm. cbn [bind].
  destruct (contains word kind); cbn [mapM bind]; [|reflexivity].
  rewrite normalize_item_id_dict. cbn [bind].
  destruct (truthy (declared_id kvs)) eqn:Hid; cbn [filter truthy];
    rewrite ?Hid; reflexivity.
Qed.

Lemma item_ids_among_siblings (word kind : string) (kvs : list (string * json))
    (pre post : list json) (url : json) (ids : list json) :
  _normalize_item_type (JObj kvs) = Ok kind ->
  item_ids_of_kind word (JArr (pre ++ JObj kvs :: post)) url = Ok ids ->
  exists before after,
    item_ids_of_kind word (JArr pre) url = Ok before
    /\ item_ids_of_kind word (JArr post) url = Ok after
    /\ ids = before ++ adds word kind (declared_id kvs) ++ after.
Proof.
  intros Hnorm Hids.
  apply item_ids_app in Hids as (before & rest & Hpre & Hrest & ->).
  change (JObj kvs :: post) with ([JObj kvs] ++ post) in Hrest.
  apply item_ids_app in Hrest as (own & after & Hown & Hpost & ->).
  rewrite (item_ids_single word kind kvs url Hnorm) in Hown. injection Hown as <-.
  now exists before, after.
Qed.

Lemma collect_manifests_exact (url data items : json) (found found' : list json) :
  collect_manifests url data found = (found', Ok items) ->
  child_items data = Ok items
  /\ exists ids,
       item_ids_of_kind "manifest" items url = Ok ids
       /\ set_update ids found = (found', None).
Proof.
  unfold collect_manifests.
  destruct (child_items data) as [items0|e]; cbn [bind]; [|discriminate].
  destruct (item_ids_of_kind "manifest" items0 url) as [ids|e] eqn:Hids; cbn [bind];
    [|discriminate].
  destruct (set_update ids found) as [found1 [e|]] eqn:Hupd; [discriminate|].
  intros Heq. injection Heq as <- <-.
  split; [reflexivity|]. now exists ids.
Qed.

Lemma normalize_item_type_value (kvs : list (string * json)) :
  _normalize_item_type (JObj kvs)
  = match declared_type kvs with
    | JArr [] => Raise IndexError
    | JArr (first :: _) => Ok (kind_of_type first)
    | type => Ok (kind_of_type type)
    end.
Proof.
  unfold declared_type, py_or, field, _normalize_item_type, py_get, kind_of_type.
  cbn [bind].
  destruct (truthy match lookup "type" kvs with Some v => v | None => JNull end);
    cbn [bind];
    match goal with
    | |- context [is_list ?t] => destruct t as [| | | |[|first rest]|]
    end; reflexivity.
Qed.

(** C6, as the code has it.  The normalised type of an item that is a JSON
    object is computed from its type field ([type], or [@type] when [type]
    is falsy) by taking the first element if the field is a list (an empty
    list raises [IndexError]), then [str()], lower case and the part after
    the last colon; a falsy value gives the empty string.  When the two
    comprehensions succeed on the list of child items, the item adds its
    identifier to the identifiers of the manifests exactly when its
    normalised type contains [manifest] and the identifier is truthy, and to
    those of the nested collections exactly when the type contains
    [collection] and the identifier is truthy, each at its place among the
    identifiers of its siblings; the two tests do not exclude each other.
    A round that completes the update of line 217 has these manifest
    identifiers in the manifest set, and a round that runs to line 239 has
    appended these collection identifiers to the queue.  A normalised type
    that is exactly [manifest] adds to the manifests only, one that is
    exactly [collection] to the queue only. *)
Theorem C6_kind_by_substring :
  forall (kvs : list (string * json)),
    _normalize_item_type (JObj kvs)
    = match declared_type kvs with
      | JArr [] => Raise IndexError
      | JArr (first :: _) => Ok (kind_of_type first)
      | type => Ok (kind_of_type type)
      end
    /\ forall kind,
        _normalize_item_type (JObj kvs) = Ok kind ->
        (forall word pre post url ids,
            item_ids_of_kind word (JArr (pre ++ JObj kvs :: post)) url = Ok ids ->
            exists before after,
              item_ids_of_kind word (JArr pre) url = Ok before
              /\ item_ids_of_kind word (JArr post) url = Ok after
              /\ ids = before ++ adds word kind (declared_id kvs) ++ after)
        /\ (forall url data found found' pre post,
            collect_manifests url data found
              = (found', Ok (JArr (pre ++ JObj kvs :: post))) ->
            exists before after,
              item_ids_of_kind "manifest" (JArr pre) url = Ok before
              /\ item_ids_of_kind "manifest" (JArr post) url = Ok after
              /\ set_update (before ++ adds "manifest" kind (declared_id kvs) ++ after)
                   found = (found', None)
              /\ forall id, In id (adds "manifest" kind (declared_id kvs)) ->
                   set_mem id found' = true)
        /\ (forall max_manifests st st' w w' calls calls' url queue data pre post,
            collection_urls_queue st = url :: queue ->
            fetch_json url w = (Ok data, w') ->
            child_items data = Ok (JArr (pre ++ JObj kvs :: post)) ->
            round max_manifests st w calls = Next st' w' calls' ->
            calls' = calls ++ [mkCall url true] ->
            exists before after,
              item_ids_of_kind "collection" (JArr pre) url = Ok before
              /\ item_ids_of_kind "collection" (JArr post) url = Ok after
              /\ collection_urls_queue st'
                 = queue ++ before ++ adds "collection" kind (declared_id kvs) ++ after
              /\ collect_manifests url data (manifest_ids st)
                 = (manifest_ids st', Ok (JArr (pre ++ JObj kvs :: post))))
        /\ (kind = "manifest" ->
            adds "manifest" kind (declared_id kvs) = filter truthy [declared_id kvs]
            /\ adds "collection" kind (declared_id kvs) = [])
        /\ (kind = "collection" ->
            adds "collection" kind (declared_id kvs) = filter truthy [declared_id kvs]
            /\ adds "manifest" kind (declared_id kvs) = []).
Proof.
  intros kvs. split; [apply normalize_item_type_value|].
  intros kind Hnorm. split; [|split; [|split; [|split]]].
  - intros word pre post url ids. now apply item_ids_among_siblings.
  - intros url data found found' pre post Hcollect.
    pose proof (collect_manifests_complete _ _ _ _ _ Hcollect) as (_ & ids' & Hids' & Hall).
    apply collect_manifests_exact in Hcollect as (_ & ids & Hids & Hupd).
    rewrite Hids in Hids'. injection Hids' as <-.
    destruct (item_ids_among_siblings "manifest" kind kvs pre post url ids Hnorm Hids)
      as (before & after & Hpre & Hpost & ->).
    exists before, after. repeat split; try assumption.
    intros id Hid. apply Hall. apply in_or_app. right. apply in_or_app. now left.
  - intros max_manifests st st' w w' calls calls' url queue data pre post
           Hq Hfetch Hitems Hround Hcalls.
    pose proof (round_visit_details _ _ _ _ _ _ _ Hround) as Hvisit.
    apply round_next_queue in Hround
      as (url0 & queue0 & Hq0 & _ & [(_ & _ & _ & Hsame)|[(_ & _ & Hskip)|(data0 & items0 & nested & Hfetch0 & Hitems0 & Hnested & Hq' & Hv & _)]]).
    + rewrite Hsame in Hcalls. apply (f_equal (@List.length fetch_call)) in Hcalls.
      rewrite length_app in Hcalls. simpl in Hcalls. lia.
    + rewrite Hskip in Hcalls. apply app_inv_head in Hcalls. discriminate Hcalls.
    + rewrite Hq in Hq0. injection Hq0 as <- <-.
      rewrite Hfetch in Hfetch0. injection Hfetch0 as <-.
      rewrite Hitems in Hitems0. injection Hitems0 as <-.
      destruct (item_ids_among_siblings "collection" kind kvs pre post url nested
                  Hnorm Hnested) as (before & after & Hpre & Hpost & ->).
      exists before, after. repeat split; try assumption.
      destruct Hvisit as [Hsame|(url1 & data1 & items1 & Hv1 & Hfetch1 & Hcollect)].
      * rewrite Hsame in Hv. apply (f_equal (@List.length json)) in Hv.
        rewrite length_app in Hv. simpl in Hv. lia.
      * rewrite Hv in Hv1. apply app_inv_head in Hv1. injection Hv1 as <-.
        rewrite Hfetch in Hfetch1. injection Hfetch1 as <-.
        pose proof (collect_manifests_exact _ _ _ _ _ Hcollect) as [Hitems1 _].
        rewrite Hitems in Hitems1. injection Hitems1 as <-. exact Hcollect.
  - intros ->. split; reflexivity.
  - intros ->. split; reflexivity.
Qed.

End KindOfItem.

Lemma C6_witness :
  [JStr manifest_1; JStr manifest_2]
    = [JStr manifest_1] ++ adds "manifest" "manifest" (JStr manifest_2) ++ []
  /\ @_normalize_item_type plain_runtime (item_v2 "sc:Manifest" manifest_2)
     = Ok "manifest"
  /\ (forall id, In id (adds "manifest" "manifest" (JStr manifest_2)) ->
      set_mem id [JStr manifest_1; JStr manifest_2] = true)
  /\ exists before after,
      [JStr child_a] = [] ++ before ++ adds "collection" "collection" (JStr child_a) ++ after.
Proof.
  destruct (@C6_kind_by_substring plain_runtime unit small_site
              [("@id", JStr manifest_2); ("@type", JStr "sc:Manifest")])
    as [Hvalue Hadds].
  destruct (Hadds "manifest" eq_refl) as (Hsiblings & Hset & _).
  destruct (Hsiblings "manifest" [item "Manifest" manifest_1]
              [item "Collection" child_a] (JStr root_url)
              [JStr manifest_1; JStr manifest_2] eq_refl)
    as (before & after & Hpre & Hpost & Hids).
  injection Hpre as <-. injection Hpost as <-.
  destruct (Hset (JStr root_url)
              (collection_doc [item "Manifest" manifest_1;
                               item_v2 "sc:Manifest" manifest_2;
                               item "Collection" child_a])
              [] [JStr manifest_1; JStr manifest_2]
              [item "Manifest" manifest_1] [item "Collection" child_a] eq_refl)
    as (_ & _ & _ & _ & _ & Hmem).
  destruct (@C6_kind_by_substring plain_runtime unit small_site
              [("id", JStr child_a); ("type", JStr "Collection")])
    as [_ Hadds'].
  destruct (Hadds' "collection" eq_refl) as (_ & _ & Hqueue & _).
  destruct (Hqueue None (mkWalk [JStr root_url] [] [])
              (mkWalk [JStr child_a] [JStr manifest_1; JStr manifest_2] [JStr root_url])
              tt tt [] [mkCall (JStr root_url) true] (JStr root_url) []
              (collection_doc [item "Manifest" manifest_1; item "Manifest" manifest_2;
                               item "Collection" child_a])
              [item "Manifest" manifest_1; item "Manifest" manifest_2] []
              eq_refl eq_refl eq_refl eq_refl eq_refl)
    as (before & after & _ & _ & Hq & _).
  cbn [collection_urls_queue] in Hq.
  split; [exact Hids|]. split; [exact Hvalue|]. split; [exact Hmem|].
  now exists before, after.
Defined.
